(** * CwlInsightsMetricsFetcher

    A shallow embedding of
    [src/braket/jobs/metrics_data/cwl_insights_metrics_fetcher.py]
    and the properties of its three stages: query submission, bounded
    polling for completion, and ingestion of the matched log lines into a
    [LogMetricsParser].

    Python's effects are written in one monad over an explicit [World]:
    the wall clock, the CloudWatch Logs client and the logger are oracles
    that answer the n-th call with their n-th value, and every call is
    appended to a trace.  Exceptions are an outcome of their own, as is
    running out of the fuel that bounds the [while] loop.

    Times are Python floats: [time.time()] and the two polling parameters
    are binary64 numbers, written here as the rationals they denote.  The
    code compares them with [<], which is exact, and adds two of them,
    which rounds the exact sum to the nearest binary64 number. *)

From Stdlib Require Import ZArith QArith Lia Lqa.
From stdpp Require Import base strings list gmap.

Close Scope Q_scope.
Open Scope string_scope.
Open Scope list_scope.

(** ** Python values *)

(** A result field of CloudWatch Logs Insights is a dict with the keys
    ["field"] and ["value"]; a log line is a list of them. *)
Abbreviation ResultField := (gmap string string).
Abbreviation LogLine := (list (gmap string string)).

(** The dict answered by [get_query_results].  Both keys the code reads
    can be missing from a dict. *)
Record GetQueryResultsResponse := mkQueryResults {
  resp_status : option string;
  resp_results : option (list LogLine)
}.

(** The keyword arguments of [start_query]. *)
Record StartQueryRequest := mkStartQuery {
  logGroupName : string;
  startTime : Z;
  endTime : Z;
  queryString : string;
  limit : Z
}.

Inductive exn :=
| MetricsRetrievalError (msg : string)
| KeyError (key : string)
| ValueError (msg : string).

Inductive outcome (A : Type) :=
| Return (a : A)
| Raise (e : exn)
| OutOfFuel.
Arguments Return {A} a.
Arguments Raise {A} e.
Arguments OutOfFuel {A}.

(** [x < y] on floats. *)
Definition Qlt_bool (x y : Q) : bool :=
  match (x ?= y)%Q with Lt => true | _ => false end.

(** [int(x)] on a float truncates towards zero. *)
Definition py_int (x : Q) : Z := Z.quot (Qnum x) (Z.pos (Qden x)).

(** Nearest integer to [a / b], ties to the even one. *)
Definition round_half_even (a : Z) (b : positive) : Z :=
  let q := (a / Z.pos b)%Z in
  let r := (a mod Z.pos b)%Z in
  match (2 * r ?= Z.pos b)%Z with
  | Lt => q
  | Gt => (q + 1)%Z
  | Eq => if Z.even q then q else (q + 1)%Z
  end.

(** The spacing of the binary64 numbers around [n / d], a number given
    in units of [2 ^ -1074], as a power of two in those units: 53 bits of
    precision, and the spacing of the subnormal numbers below that. *)
Definition binary64_grid (n : Z) (d : positive) : Z :=
  Z.max (Z.log2 (Z.abs n / Z.pos d) - 52) 0.

Definition round_scaled (n : Z) (d : positive) : Z :=
  let p := binary64_grid n d in
  (round_half_even n (d * Z.to_pos (2 ^ p)) * 2 ^ p)%Z.

(** The binary64 number nearest to [x], ties to even. *)
Definition round64 (x : Q) : Q :=
  Qmake (round_scaled (Qnum x * 2 ^ 1074) (Qden x)) (Z.to_pos (2 ^ 1074)).

(** [x + y] on floats. *)
Definition float_add (x y : Q) : Q := round64 (x + y)%Q.

(** The rationals that are binary64 numbers. *)
Definition is_float (x : Q) : Prop := (round64 x == x)%Q.

(** Truth value of [str | None] and of [int | None]. *)
Definition truthy_str (s : option string) : bool :=
  match s with
  | Some s => negb (String.eqb s "")
  | None => false
  end.

Definition truthy_int (n : option Z) : bool :=
  match n with
  | Some n => negb (Z.eqb n 0)
  | None => false
  end.

(** ** The external parser

    [LogMetricsParser], [MetricType] and [MetricStatistic] are imported by
    the module and defined elsewhere; they are an interface here.  The
    parser object is a state that [parse_log_message] updates. *)
Class LogMetricsParser (MetricType MetricStatistic MetricsTable : Type) := {
  parser : Type;
  parser_new : parser;
  parse_log_message : option string -> string -> parser -> parser;
  get_parsed_metrics : MetricType -> MetricStatistic -> parser -> MetricsTable
}.

(** A parser that only records what it is given, in arrival order. *)
Definition recording_parser (MetricType MetricStatistic : Type) :
  LogMetricsParser MetricType MetricStatistic
    (MetricType * MetricStatistic * list (option string * string)) :=
  {| parser := list (option string * string);
     parser_new := [];
     parse_log_message := fun ts msg p => p ++ [(ts, msg)];
     get_parsed_metrics := fun mt st p => (mt, st, p) |}.

(** ** The world *)

Section World.
Context {MetricType MetricStatistic : Type}.

Inductive event :=
| EvTime (t : Q)
| EvSleep (seconds : Q)
| EvStartQuery (request : StartQueryRequest)
| EvGetQueryResults (queryId : string) (response : GetQueryResultsResponse)
| EvWarning (msg : string)
| EvParserNew
| EvParseLogMessage (timestamp : option string) (message : string)
| EvGetParsedMetrics (metric_type : MetricType) (statistic : MetricStatistic).

(** The n-th call of each oracle is answered by its value at n; the
    counters say how many calls were made so far. *)
Record World := mkWorld {
  clock : nat -> Q;
  n_clock : nat;
  start_query_responses : nat -> gmap string string;
  n_start_query : nat;
  get_query_results_responses : nat -> GetQueryResultsResponse;
  n_get_query_results : nat;
  trace : list event
}.

Definition M (A : Type) : Type := World -> outcome A * World.

Definition ret {A} (a : A) : M A := fun w => (Return a, w).
Definition raise {A} (e : exn) : M A := fun w => (Raise e, w).
Definition out_of_fuel {A} : M A := fun w => (OutOfFuel, w).
Definition bind {A B} (m : M A) (k : A -> M B) : M B :=
  fun w =>
    match m w with
    | (Return a, w') => k a w'
    | (Raise e, w') => (Raise e, w')
    | (OutOfFuel, w') => (OutOfFuel, w')
    end.

Definition emit (e : event) (w : World) : World :=
  mkWorld (clock w) (n_clock w)
          (start_query_responses w) (n_start_query w)
          (get_query_results_responses w) (n_get_query_results w)
          (trace w ++ [e]).

Definition tick_clock (w : World) : World :=
  mkWorld (clock w) (S (n_clock w))
          (start_query_responses w) (n_start_query w)
          (get_query_results_responses w) (n_get_query_results w)
          (trace w).

Definition tick_start_query (w : World) : World :=
  mkWorld (clock w) (n_clock w)
          (start_query_responses w) (S (n_start_query w))
          (get_query_results_responses w) (n_get_query_results w)
          (trace w).

Definition tick_get_query_results (w : World) : World :=
  mkWorld (clock w) (n_clock w)
          (start_query_responses w) (n_start_query w)
          (get_query_results_responses w) (S (n_get_query_results w))
          (trace w).

(** [time.time()] *)
Definition time_time : M Q :=
  fun w => let t := clock w (n_clock w) in
           (Return t, emit (EvTime t) (tick_clock w)).

(** [time.sleep(seconds)]; a negative length is a [ValueError]. *)
Definition time_sleep (seconds : Q) : M unit :=
  fun w => if Qlt_bool seconds 0
           then (Raise (ValueError "sleep length must be non-negative"), w)
           else (Return tt, emit (EvSleep seconds) w).

(** [logs_client.start_query(logGroupName=..., ..., limit=...)] *)
Definition start_query (request : StartQueryRequest) : M (gmap string string) :=
  fun w => (Return (start_query_responses w (n_start_query w)),
            emit (EvStartQuery request) (tick_start_query w)).

(** [logs_client.get_query_results(queryId=query_id)] *)
Definition get_query_results (queryId : string) : M GetQueryResultsResponse :=
  fun w => let response := get_query_results_responses w (n_get_query_results w) in
           (Return response,
            emit (EvGetQueryResults queryId response) (tick_get_query_results w)).

(** [logger.warning(msg)] *)
Definition logger_warning (msg : string) : M unit :=
  fun w => (Return tt, emit (EvWarning msg) w).

(** [d[key]] *)
Definition getitem {V} (d : gmap string V) (key : string) : M V :=
  match d !! key with
  | Some v => ret v
  | None => raise (KeyError key)
  end.

Definition getattr_key {V} (o : option V) (key : string) : M V :=
  match o with
  | Some v => ret v
  | None => raise (KeyError key)
  end.
End World.

Arguments event : clear implicits.
Arguments World : clear implicits.
Arguments M : clear implicits.

Declare Scope py_scope.
Delimit Scope py_scope with py.
Notation "'let*' x ':=' m 'in' k" := (bind m (fun x => k))
  (at level 10, x name, m at level 100, k at level 200) : py_scope.
Notation "m ';;' k" := (bind m (fun _ => k))
  (at level 100, right associativity) : py_scope.
Open Scope py_scope.

(** ** The fetcher *)

Record CwlInsightsMetricsFetcher := mkFetcher {
  _poll_timeout_seconds : Q;
  _poll_interval_seconds : Q
}.

Definition LOG_GROUP_NAME : string := "/aws/braket/jobs".
Definition QUERY_DEFAULT_JOB_DURATION : Z := 3 * 60 * 60.

Section Fetcher.
Context {MetricType MetricStatistic MetricsTable : Type}.
Context {P : LogMetricsParser MetricType MetricStatistic MetricsTable}.

Local Abbreviation Py := (M MetricType MetricStatistic).

(** [LogMetricsParser()] and its two methods, as calls that show in the
    trace. *)
Definition LogMetricsParser_new : Py parser :=
  fun w => (Return parser_new, emit EvParserNew w).

Definition parser_parse_log_message
    (p : parser) (timestamp : option string) (message : string) : Py parser :=
  fun w => (Return (parse_log_message timestamp message p),
            emit (EvParseLogMessage timestamp message) w).

Definition parser_get_parsed_metrics
    (p : parser) (metric_type : MetricType) (statistic : MetricStatistic)
    : Py MetricsTable :=
  fun w => (Return (get_parsed_metrics metric_type statistic p),
            emit (EvGetParsedMetrics metric_type statistic) w).

(** [next((element["value"] for element in log_line
          if element["field"] == element_name), None)] *)
Fixpoint _get_element_from_log_line
    (element_name : string) (log_line : LogLine) : Py (option string) :=
  match log_line with
  | [] => ret None
  | element :: log_line' =>
      let* field := getitem element "field" in
      if String.eqb field element_name
      then let* value := getitem element "value" in ret (Some value)
      else _get_element_from_log_line element_name log_line'
  end.

(** The body of [while time.time() < timeout_time].  [Some results] is
    the [return] inside the loop, [None] the loop running to its end. *)
Fixpoint poll_loop (fuel : nat) (self : CwlInsightsMetricsFetcher)
    (query_id : string) (timeout_time : Q) : Py (option (list LogLine)) :=
  match fuel with
  | O => out_of_fuel
  | S fuel' =>
      let* now := time_time in
      if Qlt_bool now timeout_time then
        let* response := get_query_results query_id in
        let* query_status := getattr_key (resp_status response) "status" in
        if String.eqb query_status "Failed" || String.eqb query_status "Cancelled"
        then raise (MetricsRetrievalError
                      ("Query " +:+ query_id +:+ " failed with status "
                                +:+ query_status +:+ "."))
        else if String.eqb query_status "Complete"
        then let* results := getattr_key (resp_results response) "results" in
             ret (Some results)
        else time_sleep (_poll_interval_seconds self) ;;
             poll_loop fuel' self query_id timeout_time
      else ret None
  end.

Definition _get_metrics_results_sync (fuel : nat)
    (self : CwlInsightsMetricsFetcher) (query_id : string) : Py (list LogLine) :=
  let* start := time_time in
  let timeout_time := float_add start (_poll_timeout_seconds self) in
  let* returned := poll_loop fuel self query_id timeout_time in
  match returned with
  | Some results => ret results
  | None =>
      logger_warning ("Timed out waiting for query " +:+ query_id +:+ ".") ;;
      ret []
  end.

Definition _parse_log_line (result_entry : LogLine) (p : parser) : Py parser :=
  let* message := _get_element_from_log_line "@message" result_entry in
  if truthy_str message then
    let* timestamp := _get_element_from_log_line "@timestamp" result_entry in
    match message with
    | Some message => parser_parse_log_message p timestamp message
    | None => ret p
    end
  else ret p.

(** [for result in results: self._parse_log_line(result, parser)] *)
Fixpoint for_results (results : list LogLine) (p : parser) : Py parser :=
  match results with
  | [] => ret p
  | result :: results' =>
      let* p' := _parse_log_line result p in
      for_results results' p'
  end.

Definition _parse_log_query_results (results : list LogLine)
    (metric_type : MetricType) (statistic : MetricStatistic) : Py MetricsTable :=
  let* p := LogMetricsParser_new in
  let* p := for_results results p in
  parser_get_parsed_metrics p metric_type statistic.

Definition query_string (stream_prefix : string) : string :=
  "fields @timestamp, @message "
  +:+ "| filter @logStream like /^" +:+ stream_prefix +:+ "\// "
  +:+ "| filter @message like /Metrics - /".

Definition get_metrics_for_job (fuel : nat) (self : CwlInsightsMetricsFetcher)
    (job_name : string)
    (metric_type : MetricType) (statistic : MetricStatistic)
    (job_start_time job_end_time : option Z) (stream_prefix : option string)
    : Py MetricsTable :=
  let* query_end_time :=
    match job_end_time with
    | Some t => if truthy_int job_end_time then ret t
                else let* now := time_time in ret (py_int now)
    | None => let* now := time_time in ret (py_int now)
    end in
  let query_start_time :=
    match job_start_time with
    | Some t => if truthy_int job_start_time then t
                else (query_end_time - QUERY_DEFAULT_JOB_DURATION)%Z
    | None => (query_end_time - QUERY_DEFAULT_JOB_DURATION)%Z
    end in
  let stream_prefix :=
    match stream_prefix with
    | Some s => if truthy_str stream_prefix then s else job_name
    | None => job_name
    end in
  let query := query_string stream_prefix in
  let* response :=
    start_query (mkStartQuery LOG_GROUP_NAME query_start_time query_end_time
                              query 10000) in
  let* query_id := getitem response "queryId" in
  let* results := _get_metrics_results_sync fuel self query_id in
  _parse_log_query_results results metric_type statistic.
End Fetcher.

(** ** Example inputs *)

(** The two selectors, as the callers of the module name them. *)
Inductive ExampleMetricType := TIMESTAMP | ITERATION_NUMBER.
Inductive ExampleMetricStatistic := MIN | MAX.

Definition result_field (field value : string) : gmap string string :=
  <["field" := field]> (<["value" := value]> ∅).

Definition running : GetQueryResultsResponse := mkQueryResults (Some "Running") None.

(** A clock on which every sleep of the default interval takes a second
    and nothing else takes time: 0, 0, 1, 2, ... *)
Definition sleeping_clock (n : nat) : Q := inject_Z (Z.of_nat (Nat.pred n)).

(** A world that has seen no call yet, answers [start_query] with the
    handle ["q-1"] and [get_query_results] with [responses], then with
    [last] for ever. *)
Definition example_world (clock : nat -> Q)
    (responses : list GetQueryResultsResponse) (last : GetQueryResultsResponse)
    : World ExampleMetricType ExampleMetricStatistic :=
  mkWorld clock 0 (fun _ => {["queryId" := "q-1"]}) 0
          (fun n => nth n responses last) 0 [].

(** A clock that advances one second with every reading. *)
Definition ticking_clock (n : nat) : Q := inject_Z (Z.of_nat n).

(** A clock that advances one second with every reading up to the
    fifth, and is far ahead from then on. *)
Definition stalling_clock (n : nat) : Q :=
  if Nat.ltb n 5 then inject_Z (Z.of_nat n) else 1000%Q.

(** A clock that reads the floats nearest to 0.1 and 10.1 with 1 and 2
    between them, and 11 from then on. *)
Definition rounding_clock (n : nat) : Q :=
  nth n [round64 (1 # 10); 1%Q; 2%Q; round64 (101 # 10)] 11%Q.

(** A response of a completed query with one matched line. *)
Definition complete_with_energy : GetQueryResultsResponse :=
  mkQueryResults (Some "Complete")
    (Some [[result_field "@timestamp" "1000";
            result_field "@message" "Metrics - energy=0.1"]]).

(** ** Runs of the fetcher

    The definitions below describe runs: the oracle values a call will
    see, the worlds it passes through and the events it leaves. *)

Section Theory.
Context {MetricType MetricStatistic MetricsTable : Type}.
Context {P : LogMetricsParser MetricType MetricStatistic MetricsTable}.
Variable self : CwlInsightsMetricsFetcher.
Variable query_id : string.

Local Abbreviation Py := (M MetricType MetricStatistic).
Local Abbreviation World' := (World MetricType MetricStatistic).
Local Abbreviation event' := (event MetricType MetricStatistic).

(** A status that makes the loop sleep and poll again. *)
Definition still_running (r : GetQueryResultsResponse) : bool :=
  match resp_status r with
  | Some s => negb (String.eqb s "Failed" || String.eqb s "Cancelled"
                    || String.eqb s "Complete")
  | None => false
  end.

(** The clock reading and the response of the i-th iteration that
    starts in [w]. *)
Definition reading (w : World') (i : nat) : Q := clock w (n_clock w + i).
Definition response (w : World') (i : nat) : GetQueryResultsResponse :=
  get_query_results_responses w (n_get_query_results w + i).

(** The first [n] iterations are within the budget and see a query that
    is still running. *)
Definition pending (n : nat) (timeout_time : Q) (w : World') : Prop :=
  forall i, i < n ->
    (reading w i < timeout_time)%Q /\ still_running (response w i) = true.

(** What one such iteration does to the world, and [n] of them. *)
Definition poll_step (w : World') : World' :=
  emit (EvSleep (_poll_interval_seconds self))
    (emit (EvGetQueryResults query_id (response w 0))
       (tick_get_query_results
          (emit (EvTime (reading w 0)) (tick_clock w)))).

Fixpoint after_polls (n : nat) (w : World') : World' :=
  match n with
  | O => w
  | S n' => poll_step (after_polls n' w)
  end.

Definition poll_events (w : World') (n : nat) : list event' :=
  flat_map (fun i => [EvTime (reading w i);
                      EvGetQueryResults query_id (response w i);
                      EvSleep (_poll_interval_seconds self)])
           (seq 0 n).

(** The deadline computed on entry, and the world in which the loop
    starts. *)
Definition deadline (w : World') : Q :=
  float_add (reading w 0) (_poll_timeout_seconds self).

Definition loop_entry (w : World') : World' :=
  emit (EvTime (reading w 0)) (tick_clock w).

(** The first [n] status checks of a call that starts in [w]: each is
    made within the budget and finds the query still running. *)
Definition unfinished (n : nat) (w : World') : Prop :=
  forall i, i < n ->
    (reading w (S i) < deadline w)%Q /\ still_running (response w i) = true.

(** Their events: the loop test, the status check, the sleep. *)
Definition unfinished_events (n : nat) (w : World') : list event' :=
  flat_map (fun i => [EvTime (reading w (S i));
                      EvGetQueryResults query_id (response w i);
                      EvSleep (_poll_interval_seconds self)])
           (seq 0 n).

(** The world after [n] unfinished checks. *)
Definition after_unfinished (n : nat) (w : World') : World' :=
  after_polls n (loop_entry w).

(** The request that [get_metrics_for_job] builds, given the clock
    reading it would take. *)
Definition effective_end_time (job_end_time : option Z) (now : Q) : Z :=
  if truthy_int job_end_time then default 0%Z job_end_time else py_int now.

Definition effective_start_time (job_start_time : option Z) (query_end_time : Z) : Z :=
  if truthy_int job_start_time then default 0%Z job_start_time
  else (query_end_time - QUERY_DEFAULT_JOB_DURATION)%Z.

Definition effective_prefix (stream_prefix : option string) (job_name : string) : string :=
  if truthy_str stream_prefix then default "" stream_prefix else job_name.

Definition submitted_request (job_name : string)
    (job_start_time job_end_time : option Z) (stream_prefix : option string)
    (now : Q) : StartQueryRequest :=
  let query_end_time := effective_end_time job_end_time now in
  mkStartQuery LOG_GROUP_NAME
               (effective_start_time job_start_time query_end_time)
               query_end_time
               (query_string (effective_prefix stream_prefix job_name))
               10000.

(** The events of the submission: the clock is read only when no end
    time is given. *)
Definition submit_events (job_name : string)
    (job_start_time job_end_time : option Z) (stream_prefix : option string)
    (w : World') : list event' :=
  let now := clock w (n_clock w) in
  (if truthy_int job_end_time then [] else [EvTime now])
  ++ [EvStartQuery
        (submitted_request job_name job_start_time job_end_time stream_prefix now)].

(** The first stage of [get_metrics_for_job], up to
    [query_id = response["queryId"]]. *)
Definition submit (job_name : string)
    (job_start_time job_end_time : option Z) (stream_prefix : option string)
    : Py string :=
  fun w =>
    let w1 := if truthy_int job_end_time then w
              else emit (EvTime (clock w (n_clock w))) (tick_clock w) in
    let request :=
      submitted_request job_name job_start_time job_end_time stream_prefix
                        (clock w (n_clock w)) in
    getitem (start_query_responses w (n_start_query w)) "queryId"
            (emit (EvStartQuery request) (tick_start_query w1)).

(** The stage an event belongs to. *)
Definition poller_event (ev : event') : bool :=
  match ev with
  | EvTime _ | EvSleep _ | EvGetQueryResults _ _ | EvWarning _ => true
  | _ => false
  end.

Definition parser_event (ev : event') : bool :=
  match ev with
  | EvParserNew | EvParseLogMessage _ _ | EvGetParsedMetrics _ _ => true
  | _ => false
  end.

(** A status check that found the query failed or cancelled, with the
    handle it asked for and the status it saw. *)
Definition failed_status (status : string) : bool :=
  String.eqb status "Failed" || String.eqb status "Cancelled".

Definition failed_poll (ev : event') : option (string * string) :=
  match ev with
  | EvGetQueryResults q r =>
      match resp_status r with
      | Some status => if failed_status status then Some (q, status) else None
      | None => None
      end
  | _ => None
  end.

Definition no_failed_poll (evs : list event') : Prop :=
  Forall (fun ev => failed_poll ev = None) evs.

Definition retrieval_error (q status : string) : exn :=
  MetricsRetrievalError
    ("Query " +:+ q +:+ " failed with status " +:+ status +:+ ".").

Definition raised {A} (o : outcome A) : option exn :=
  match o with
  | Raise e => Some e
  | _ => None
  end.

(** Every failed status check among [evs] asked for [handle], is the last
    of the events, and decides the exception [r]. *)
Definition fails_at_last (handle : string) (r : option exn) (evs : list event') : Prop :=
  forall pre ev post q status,
    evs = pre ++ ev :: post ->
    failed_poll ev = Some (q, status) ->
    post = [] /\ r = Some (retrieval_error q status) /\ q = handle.

(** What the parser object has become after the calls among [evs]. *)
Definition replay (evs : list event') (p : parser) : parser :=
  fold_left (fun p ev =>
               match ev with
               | EvParseLogMessage timestamp message =>
                   parse_log_message timestamp message p
               | _ => p
               end) evs p.

(** *** Records *)

(** A well-formed result field carries both of its keys. *)
Definition well_formed_field (element : ResultField) : Prop :=
  is_Some (element !! "field") /\ is_Some (element !! "value").

Definition well_formed_line (log_line : LogLine) : Prop :=
  Forall well_formed_field log_line.

(** Whether some element of the line is named [element_name]. *)
Definition has_field (element_name : string) (log_line : LogLine) : bool :=
  existsb (fun element => bool_decide (element !! "field" = Some element_name))
          log_line.

(** The value of the first element named [element_name]: what
    [_get_element_from_log_line] returns on a well-formed line. *)
Fixpoint element_of (element_name : string) (log_line : LogLine) : option string :=
  match log_line with
  | [] => None
  | element :: log_line' =>
      if bool_decide (element !! "field" = Some element_name)
      then element !! "value"
      else element_of element_name log_line'
  end.

(** The records that pass [if message:], and the call of the parser that
    each of them causes. *)
Definition retained (log_line : LogLine) : bool :=
  truthy_str (element_of "@message" log_line).

Definition ingest_call (log_line : LogLine) : event' :=
  EvParseLogMessage (element_of "@timestamp" log_line)
                    (default "" (element_of "@message" log_line)).

Definition ingest_events (results : list LogLine) : list event' :=
  map ingest_call (List.filter retained results).

(** The world after a run of calls that only leave events. *)
Definition emits (evs : list event') (w : World') : World' :=
  fold_left (fun w ev => emit ev w) evs w.

(** How many calls of [parse_log_message] a trace holds. *)
Definition is_ingest (ev : event') : bool :=
  match ev with
  | EvParseLogMessage _ _ => true
  | _ => false
  end.

Definition ingest_calls (evs : list event') : nat :=
  length (List.filter is_ingest evs).

(** The reading of "once per record that has an [@message] field" at one
    input: the call adds as many calls of [parse_log_message] to the trace
    as there are records with an element of that name. *)
Definition ingests_once_per_message_field (results : list LogLine)
    (metric_type : MetricType) (statistic : MetricStatistic) (w : World') : Prop :=
  ingest_calls (trace (snd (_parse_log_query_results results metric_type statistic w)))
  = ingest_calls (trace w) + length (List.filter (has_field "@message") results).

(** *** Two calls *)

(** The answer that the i-th [start_query] from [w] on will get. *)
Definition handle_response (w : World') (i : nat) : gmap string string :=
  start_query_responses w (n_start_query w + i).

(** The service answers the calls made from [b] on as it answers those
    made from [a] on. *)
Definition same_service (a b : World') : Prop :=
  (forall i, handle_response b i = handle_response a i)
  /\ (forall i, response b i = response a i).

(** The first [n] loop tests made from [b] on against [tb] come out as
    those made from [a] on against [ta]. *)
Definition same_tests (n : nat) (ta tb : Q) (a b : World') : Prop :=
  forall i, i < n -> Qlt_bool (reading b i) tb = Qlt_bool (reading a i) ta.

(** How often the submission reads the clock. *)
Definition submission_clock_reads (job_end_time : option Z) : nat :=
  if truthy_int job_end_time then 0 else 1.

(** The loop tests that a fetch with [fuel] iterations can make in [b]
    come out as those of the same fetch in [a]: each compares a reading
    with the deadline that the poller computes from the reading before
    its first test. *)
Definition same_loop_tests (fuel : nat) (job_end_time : option Z)
    (a b : World') : Prop :=
  let k := submission_clock_reads job_end_time in
  forall i, i < fuel ->
    Qlt_bool (reading b (S (k + i)))
             (float_add (reading b k) (_poll_timeout_seconds self))
    = Qlt_bool (reading a (S (k + i)))
               (float_add (reading a k) (_poll_timeout_seconds self)).

Definition is_start_query (ev : event') : bool :=
  match ev with
  | EvStartQuery _ => true
  | _ => false
  end.

(** One iteration of the loop, as a function of the world. *)
Definition poll_iteration (fuel : nat) (timeout_time : Q) (w : World')
    : outcome (option (list LogLine)) * World' :=
  let now := clock w (n_clock w) in
  let w1 := emit (EvTime now) (tick_clock w) in
  if Qlt_bool now timeout_time then
    let r := get_query_results_responses w (n_get_query_results w) in
    let w2 := emit (EvGetQueryResults query_id r) (tick_get_query_results w1) in
    match resp_status r with
    | None => (Raise (KeyError "status"), w2)
    | Some status =>
        if failed_status status then (Raise (retrieval_error query_id status), w2)
        else if String.eqb status "Complete" then
          match resp_results r with
          | Some results => (Return (Some results), w2)
          | None => (Raise (KeyError "results"), w2)
          end
        else if Qlt_bool (_poll_interval_seconds self) 0 then
          (Raise (ValueError "sleep length must be non-negative"), w2)
        else poll_loop fuel self query_id timeout_time
               (emit (EvSleep (_poll_interval_seconds self)) w2)
    end
  else (Return None, w1).



(** A status check for the handle [handle], or no status check at all. *)
Definition asks_for (handle : string) (ev : event') : bool :=
  match ev with
  | EvGetQueryResults q _ => String.eqb q handle
  | _ => true
  end.

(** The exceptions of the polling stage, with the response that causes
    each of them. *)
Definition poll_error (r : GetQueryResultsResponse) (e : exn) : Prop :=
  match resp_status r with
  | None => e = KeyError "status"
  | Some status =>
      if failed_status status then e = retrieval_error query_id status
      else if String.eqb status "Complete"
      then resp_results r = None /\ e = KeyError "results"
      else (_poll_interval_seconds self < 0)%Q
           /\ e = ValueError "sleep length must be non-negative"
  end.

Definition is_warning (ev : event') : bool :=
  match ev with
  | EvWarning _ => true
  | _ => false
  end.

Definition is_status_check (ev : event') : bool :=
  match ev with
  | EvGetQueryResults _ _ => true
  | _ => false
  end.

(** ** Rounding to binary64 *)

Lemma round_half_even_bounds a b :
  (a / Z.pos b <= round_half_even a b <= a / Z.pos b + 1)%Z.
Proof.
  unfold round_half_even.
  destruct (2 * (a mod Z.pos b) ?= Z.pos b)%Z; [destruct (Z.even _)|..]; lia.
Qed.

Lemma div_le_fractions a1 b1 a2 b2 :
  (0 < b1 -> 0 < b2 -> a1 * b2 <= a2 * b1 -> a1 / b1 <= a2 / b2)%Z.
Proof.
  intros H1 H2 H. apply Z.div_le_lower_bound; [lia|].
  pose proof (Z.mul_div_le a1 b1 H1).
  nia.
Qed.

Lemma round_half_even_mono a1 b1 a2 b2 :
  (a1 * Z.pos b2 <= a2 * Z.pos b1)%Z ->
  (round_half_even a1 b1 <= round_half_even a2 b2)%Z.
Proof.
  intros H.
  pose proof (div_le_fractions a1 (Z.pos b1) a2 (Z.pos b2) ltac:(lia) ltac:(lia) H) as Hq.
  pose proof (round_half_even_bounds a1 b1) as B1.
  pose proof (round_half_even_bounds a2 b2) as B2.
  destruct (Z.eq_dec (a1 / Z.pos b1)%Z (a2 / Z.pos b2)%Z) as [E|NE]; [|lia].
  pose proof (Z.div_mod a1 (Z.pos b1) ltac:(lia)) as D1.
  pose proof (Z.div_mod a2 (Z.pos b2) ltac:(lia)) as D2.
  pose proof (Z.mod_pos_bound a1 (Z.pos b1) ltac:(lia)) as M1.
  pose proof (Z.mod_pos_bound a2 (Z.pos b2) ltac:(lia)) as M2.
  unfold round_half_even in *. rewrite <- E in *.
  set (q := (a1 / Z.pos b1)%Z) in *.
  set (r1 := (a1 mod Z.pos b1)%Z) in *. set (r2 := (a2 mod Z.pos b2)%Z) in *.
  assert (r1 * Z.pos b2 <= r2 * Z.pos b1)%Z as Hr by nia.
  destruct (Z.compare_spec (2 * r1)%Z (Z.pos b1)) as [C1|C1|C1];
    destruct (Z.compare_spec (2 * r2)%Z (Z.pos b2)) as [C2|C2|C2];
    try destruct (Z.even q); try lia; exfalso; nia.
Qed.

Lemma round_half_even_integer k b : round_half_even (k * Z.pos b) b = k.
Proof.
  unfold round_half_even. rewrite Z.div_mul, Z.mod_mul by lia. reflexivity.
Qed.

Lemma round_half_even_ge k a b :
  (k * Z.pos b <= a)%Z -> (k <= round_half_even a b)%Z.
Proof.
  intros H. rewrite <- (round_half_even_integer k b).
  apply round_half_even_mono. nia.
Qed.

Lemma round_half_even_le k a b :
  (a <= k * Z.pos b)%Z -> (round_half_even a b <= k)%Z.
Proof.
  intros H. rewrite <- (round_half_even_integer k b).
  apply round_half_even_mono. nia.
Qed.

Lemma binary64_grid_nonneg n d : (0 <= binary64_grid n d)%Z.
Proof. unfold binary64_grid. lia. Qed.

Lemma binary64_grid_high n d :
  (Z.abs n < 2 ^ (53 + binary64_grid n d) * Z.pos d)%Z.
Proof.
  unfold binary64_grid. set (f := (Z.abs n / Z.pos d)%Z).
  assert (0 <= f)%Z as Hf by (apply Z.div_pos; lia).
  pose proof (Z.div_mod (Z.abs n) (Z.pos d) ltac:(lia)) as D.
  pose proof (Z.mod_pos_bound (Z.abs n) (Z.pos d) ltac:(lia)) as M.
  fold f in D.
  assert (f < 2 ^ (53 + Z.max (Z.log2 f - 52) 0))%Z as Hlt.
  { destruct (Z.eq_dec f 0%Z) as [->|Hne].
    - apply Z.pow_pos_nonneg; lia.
    - destruct (Z.log2_spec f ltac:(lia)) as [_ Hup].
      eapply Z.lt_le_trans; [exact Hup|].
      apply Z.pow_le_mono_r; lia. }
  nia.
Qed.

Lemma binary64_grid_low n d :
  (1 <= binary64_grid n d -> 2 ^ (52 + binary64_grid n d) * Z.pos d <= Z.abs n)%Z.
Proof.
  unfold binary64_grid. set (f := (Z.abs n / Z.pos d)%Z). intros Hp.
  assert (0 <= f)%Z as Hf by (apply Z.div_pos; lia).
  pose proof (Z.div_mod (Z.abs n) (Z.pos d) ltac:(lia)) as D.
  pose proof (Z.mod_pos_bound (Z.abs n) (Z.pos d) ltac:(lia)) as M.
  fold f in D.
  assert (0 < f)%Z as Hpos.
  { destruct (Z.eq_dec f 0%Z) as [E|]; [|lia]. rewrite E in Hp. cbn in Hp. lia. }
  destruct (Z.log2_spec f Hpos) as [Hlow _].
  replace (52 + Z.max (Z.log2 f - 52) 0)%Z with (Z.log2 f) by lia.
  nia.
Qed.

Lemma binary64_grid_mono n1 d1 n2 d2 :
  (Z.abs n1 * Z.pos d2 <= Z.abs n2 * Z.pos d1)%Z ->
  (binary64_grid n1 d1 <= binary64_grid n2 d2)%Z.
Proof.
  intros H. unfold binary64_grid.
  apply Z.max_le_compat_r. apply Z.sub_le_mono_r. apply Z.log2_le_mono.
  apply div_le_fractions; lia.
Qed.

Lemma pos_scale d p :
  (0 <= p)%Z -> Z.pos (d * Z.to_pos (2 ^ p)) = (Z.pos d * 2 ^ p)%Z.
Proof.
  intros Hp. rewrite Pos2Z.inj_mul, Z2Pos.id; [reflexivity|].
  apply Z.pow_pos_nonneg; lia.
Qed.

Lemma round_scaled_mono n1 d1 n2 d2 :
  (n1 * Z.pos d2 <= n2 * Z.pos d1)%Z ->
  (round_scaled n1 d1 <= round_scaled n2 d2)%Z.
Proof.
  intros H. unfold round_scaled.
  pose proof (binary64_grid_nonneg n1 d1) as P1.
  pose proof (binary64_grid_nonneg n2 d2) as P2.
  pose proof (binary64_grid_high n1 d1) as H1.
  pose proof (binary64_grid_high n2 d2) as H2.
  pose proof (binary64_grid_low n1 d1) as L1.
  pose proof (binary64_grid_low n2 d2) as L2.
  set (p1 := binary64_grid n1 d1) in *. set (p2 := binary64_grid n2 d2) in *.
  assert (0 < 2 ^ p1)%Z as Q1 by (apply Z.pow_pos_nonneg; lia).
  assert (0 < 2 ^ p2)%Z as Q2 by (apply Z.pow_pos_nonneg; lia).
  rewrite (Z.pow_add_r 2%Z 53%Z p1) in H1 by lia.
  rewrite (Z.pow_add_r 2%Z 53%Z p2) in H2 by lia.
  rewrite (Z.pow_add_r 2%Z 52%Z p1) in L1 by lia.
  rewrite (Z.pow_add_r 2%Z 52%Z p2) in L2 by lia.
  assert (forall k n d p, (0 <= p)%Z -> (k * (Z.pos d * 2 ^ p) <= n)%Z ->
            (k <= round_half_even n (d * Z.to_pos (2 ^ p)))%Z) as Hge.
  { intros k n d p Hp Hk. apply round_half_even_ge. by rewrite pos_scale. }
  assert (forall k n d p, (0 <= p)%Z -> (n <= k * (Z.pos d * 2 ^ p))%Z ->
            (round_half_even n (d * Z.to_pos (2 ^ p)) <= k)%Z) as Hle.
  { intros k n d p Hp Hk. apply round_half_even_le. by rewrite pos_scale. }
  destruct (Z_le_gt_dec 0%Z n1) as [Hn1|Hn1].
  - assert (0 <= n2)%Z as Hn2 by nia.
    assert (p1 <= p2)%Z as Hp.
    { apply binary64_grid_mono. rewrite !Z.abs_eq by lia. exact H. }
    destruct (Z.eq_dec p1 p2) as [E|NE].
    + unfold p1, p2 in *. rewrite <- E in *.
      apply Z.mul_le_mono_nonneg_r; [lia|].
      apply round_half_even_mono. rewrite !pos_scale by lia. nia.
    + assert (1 <= p2)%Z as Hp2 by lia. specialize (L2 Hp2).
      rewrite Z.abs_eq in H1, L2 by lia.
      pose proof (Hle (2 ^ 53)%Z n1 d1 p1 P1 ltac:(nia)) as U.
      pose proof (Hge (2 ^ 52)%Z n2 d2 p2 P2 ltac:(nia)) as V.
      assert (2 ^ 53 * 2 ^ p1 <= 2 ^ 52 * 2 ^ p2)%Z as W.
      { rewrite <- !Z.pow_add_r by lia. apply Z.pow_le_mono_r; lia. }
      nia.
  - destruct (Z_le_gt_dec n2 0%Z) as [Hn2|Hn2].
    + assert (p2 <= p1)%Z as Hp.
      { apply binary64_grid_mono. rewrite !Z.abs_neq by lia. nia. }
      destruct (Z.eq_dec p1 p2) as [E|NE].
      * unfold p1, p2 in *. rewrite <- E in *.
        apply Z.mul_le_mono_nonneg_r; [lia|].
        apply round_half_even_mono. rewrite !pos_scale by lia. nia.
      * assert (1 <= p1)%Z as Hp1 by lia. specialize (L1 Hp1).
        rewrite Z.abs_neq in L1, H2 by lia.
        pose proof (Hle (- 2 ^ 52)%Z n1 d1 p1 P1 ltac:(nia)) as U.
        pose proof (Hge (- 2 ^ 53)%Z n2 d2 p2 P2 ltac:(nia)) as V.
        assert (2 ^ 53 * 2 ^ p2 <= 2 ^ 52 * 2 ^ p1)%Z as W.
        { rewrite <- !Z.pow_add_r by lia. apply Z.pow_le_mono_r; lia. }
        nia.
    + pose proof (Hle 0%Z n1 d1 p1 P1 ltac:(nia)) as U.
      pose proof (Hge 0%Z n2 d2 p2 P2 ltac:(nia)) as V.
      nia.
Qed.

(** Rounding keeps the order. *)
Lemma round64_le (x y : Q) : (x <= y)%Q -> (round64 x <= round64 y)%Q.
Proof.
  unfold Qle, round64. cbn [Qnum Qden]. intros H.
  apply Z.mul_le_mono_nonneg_r; [lia|].
  apply round_scaled_mono.
  assert (0 < 2 ^ 1074)%Z by (apply Z.pow_pos_nonneg; lia). nia.
Qed.

(** A sum with a float that does not exceed it rounds to at most that
    float, and a float below a rounded number is below the number. *)
Lemma float_add_nonpos (x t : Q) :
  is_float x -> (t <= 0)%Q -> (float_add x t <= x)%Q.
Proof.
  intros Hx Ht. unfold float_add, is_float in *.
  apply (Qle_trans _ (round64 x)); [apply round64_le; lra|].
  rewrite Hx. apply Qle_refl.
Qed.

Lemma float_below_rounded (x y : Q) :
  is_float x -> (x < round64 y)%Q -> (x < y)%Q.
Proof.
  intros Hx Hlt. apply Qnot_le_lt. intros Hle.
  apply round64_le in Hle. unfold is_float in Hx. rewrite Hx in Hle. lra.
Qed.

(** ** Reasoning about a polling run *)

Lemma Qlt_bool_true (x y : Q) : Qlt_bool x y = true <-> (x < y)%Q.
Proof.
  unfold Qlt_bool. rewrite Qlt_alt.
  destruct (x ?= y)%Q; split; congruence.
Qed.

Lemma Qlt_bool_false (x y : Q) : Qlt_bool x y = false <-> (y <= x)%Q.
Proof.
  pose proof (Qlt_bool_true x y) as H.
  split.
  - intros E. apply Qnot_lt_le. intros L. apply H in L. congruence.
  - intros L. destruct (Qlt_bool x y); [|done].
    exfalso. apply (Qle_not_lt _ _ L). by apply H.
Qed.

Lemma after_polls_oracles n w :
  clock (after_polls n w) = clock w
  /\ n_clock (after_polls n w) = n_clock w + n
  /\ get_query_results_responses (after_polls n w) = get_query_results_responses w
  /\ n_get_query_results (after_polls n w) = n_get_query_results w + n
  /\ start_query_responses (after_polls n w) = start_query_responses w
  /\ n_start_query (after_polls n w) = n_start_query w.
Proof.
  induction n as [|n IH]; cbn.
  - repeat split; lia.
  - destruct IH as (-> & -> & -> & -> & -> & ->). repeat split; lia.
Qed.

Lemma after_polls_reading n w i :
  reading (after_polls n w) i = reading w (n + i).
Proof.
  unfold reading. destruct (after_polls_oracles n w) as (-> & -> & _).
  f_equal. lia.
Qed.

Lemma after_polls_response n w i :
  response (after_polls n w) i = response w (n + i).
Proof.
  unfold response.
  destruct (after_polls_oracles n w) as (_ & _ & -> & -> & _).
  f_equal. lia.
Qed.

Lemma after_polls_trace n w :
  trace (after_polls n w) = trace w ++ poll_events w n.
Proof.
  induction n as [|n IH].
  - cbn. by rewrite app_nil_r.
  - unfold poll_events in *. rewrite seq_S, flat_map_app. cbn [after_polls].
    cbn -[after_polls reading response]. rewrite IH.
    rewrite after_polls_reading, after_polls_response, Nat.add_0_r.
    by rewrite <- !app_assoc.
Qed.

(** One iteration of the loop on a pending query. *)
Lemma poll_loop_step fuel timeout_time w :
  (reading w 0 < timeout_time)%Q ->
  still_running (response w 0) = true ->
  (0 <= _poll_interval_seconds self)%Q ->
  poll_loop (S fuel) self query_id timeout_time w
  = poll_loop fuel self query_id timeout_time (poll_step w).
Proof.
  intros Hlt Hrun Hint.
  apply Qlt_bool_true in Hlt. apply Qlt_bool_false in Hint.
  unfold reading, response in *. rewrite ?Nat.add_0_r in *.
  unfold still_running in Hrun.
  cbn [poll_loop]. unfold bind at 1. cbn [time_time].
  rewrite Hlt. unfold bind at 1. cbn -[poll_loop String.eqb].
  destruct (resp_status _) as [s|]; [|done].
  cbn -[poll_loop String.eqb].
  destruct (String.eqb s "Failed"); [done|].
  destruct (String.eqb s "Cancelled"); [done|].
  destruct (String.eqb s "Complete"); [done|].
  cbn -[poll_loop]. unfold bind at 1, time_sleep. rewrite Hint.
  unfold poll_step, reading, response. by rewrite !Nat.add_0_r.
Qed.

Lemma poll_loop_pending n fuel timeout_time w :
  n = 0 \/ (0 <= _poll_interval_seconds self)%Q ->
  pending n timeout_time w ->
  poll_loop (n + fuel) self query_id timeout_time w
  = poll_loop fuel self query_id timeout_time (after_polls n w).
Proof.
  intros [->|Hint]; [done|]. revert fuel.
  induction n as [|n IH]; intros fuel Hpend; [done|].
  replace (S n + fuel) with (n + S fuel) by lia.
  rewrite IH by (intros i Hi; apply Hpend; lia).
  destruct (Hpend n) as [Hlt Hrun]; [lia|].
  apply poll_loop_step; [| |done].
  - by rewrite after_polls_reading, Nat.add_0_r.
  - by rewrite after_polls_response, Nat.add_0_r.
Qed.

(** ** How a polling run ends *)

Lemma loop_entry_reading w i : reading (loop_entry w) i = reading w (S i).
Proof. unfold reading. cbn. f_equal. lia. Qed.

Lemma loop_entry_response w i : response (loop_entry w) i = response w i.
Proof. reflexivity. Qed.

Lemma unfinished_pending n w :
  unfinished n w -> pending n (deadline w) (loop_entry w).
Proof.
  intros H i Hi. rewrite loop_entry_reading, loop_entry_response. by apply H.
Qed.

Lemma poll_events_loop_entry n w :
  poll_events (loop_entry w) n = unfinished_events n w.
Proof.
  unfold poll_events, unfinished_events. apply flat_map_ext. intros i.
  by rewrite loop_entry_reading, loop_entry_response.
Qed.

Lemma after_unfinished_trace n w :
  trace (after_unfinished n w)
  = trace w ++ [EvTime (reading w 0)] ++ unfinished_events n w.
Proof.
  unfold after_unfinished.
  rewrite after_polls_trace, poll_events_loop_entry. cbn.
  by rewrite <- app_assoc.
Qed.

Lemma after_unfinished_reading n w i :
  reading (after_unfinished n w) i = reading w (S (n + i)).
Proof.
  unfold after_unfinished. by rewrite after_polls_reading, loop_entry_reading.
Qed.

Lemma after_unfinished_response n w i :
  response (after_unfinished n w) i = response w (n + i).
Proof.
  unfold after_unfinished. by rewrite after_polls_response, loop_entry_response.
Qed.

Lemma after_unfinished_counters n w :
  n_clock (after_unfinished n w) = S (n_clock w + n)
  /\ n_get_query_results (after_unfinished n w) = n_get_query_results w + n
  /\ n_start_query (after_unfinished n w) = n_start_query w.
Proof.
  unfold after_unfinished.
  destruct (after_polls_oracles n (loop_entry w))
    as (_ & -> & _ & -> & _ & ->).
  cbn. repeat split; lia.
Qed.

(** The call runs through its unfinished checks. *)
Lemma sync_unfinished n fuel w :
  n = 0 \/ (0 <= _poll_interval_seconds self)%Q ->
  unfinished n w ->
  _get_metrics_results_sync (n + fuel) self query_id w
  = (let* returned := poll_loop fuel self query_id (deadline w) in
     match returned with
     | Some results => ret results
     | None =>
         logger_warning ("Timed out waiting for query " +:+ query_id +:+ ".") ;;
         ret []
     end) (after_unfinished n w).
Proof.
  intros Hint Hun. unfold _get_metrics_results_sync.
  unfold bind at 1. cbn [time_time].
  unfold bind at 1 3.
  pose proof (poll_loop_pending n fuel (deadline w) (loop_entry w)
                Hint (unfinished_pending n w Hun)) as E.
  unfold after_unfinished.
  unfold deadline, loop_entry, reading in *. rewrite Nat.add_0_r in *.
  by rewrite E.
Qed.

(** The budget runs out at the next loop test. *)
Lemma sync_times_out n fuel w :
  n = 0 \/ (0 <= _poll_interval_seconds self)%Q ->
  unfinished n w ->
  (deadline w <= reading w (S n))%Q ->
  _get_metrics_results_sync (n + S fuel) self query_id w
  = (Return [],
     emit (EvWarning ("Timed out waiting for query " +:+ query_id +:+ "."))
       (emit (EvTime (reading w (S n))) (tick_clock (after_unfinished n w)))).
Proof.
  intros Hint Hun Hout. rewrite sync_unfinished by done.
  apply Qlt_bool_false in Hout.
  rewrite <- (Nat.add_0_r n), <- after_unfinished_reading in Hout.
  rewrite <- (Nat.add_0_r n) at 2. rewrite <- after_unfinished_reading.
  unfold reading in *. rewrite Nat.add_0_r in *.
  unfold bind at 1. cbn [poll_loop]. unfold bind at 1. cbn [time_time].
  by rewrite Hout.
Qed.

(** The next status check finds the query failed or cancelled. *)
Lemma sync_fails n fuel w status :
  n = 0 \/ (0 <= _poll_interval_seconds self)%Q ->
  unfinished n w ->
  (reading w (S n) < deadline w)%Q ->
  resp_status (response w n) = Some status ->
  status = "Failed" \/ status = "Cancelled" ->
  _get_metrics_results_sync (n + S fuel) self query_id w
  = (Raise (MetricsRetrievalError
              ("Query " +:+ query_id +:+ " failed with status " +:+ status +:+ ".")),
     emit (EvGetQueryResults query_id (response w n))
       (tick_get_query_results
          (emit (EvTime (reading w (S n))) (tick_clock (after_unfinished n w))))).
Proof.
  intros Hint Hun Hin Hst Hfail.
  rewrite sync_unfinished by done.
  apply Qlt_bool_true in Hin.
  rewrite <- (Nat.add_0_r n), <- after_unfinished_reading in Hin.
  rewrite <- (Nat.add_0_r n) in Hst. rewrite <- after_unfinished_response in Hst.
  rewrite <- (Nat.add_0_r n) at 2 3.
  rewrite <- after_unfinished_reading, <- after_unfinished_response.
  unfold reading, response in *. rewrite ?Nat.add_0_r in *.
  unfold bind at 1. cbn [poll_loop]. unfold bind at 1. cbn [time_time].
  rewrite Hin. unfold bind at 1. cbn -[String.eqb String.append].
  rewrite Hst. cbn -[String.eqb String.append].
  destruct Hfail as [-> | ->]; reflexivity.
Qed.

(** The next status check finds the query complete. *)
Lemma sync_completes n fuel w results :
  n = 0 \/ (0 <= _poll_interval_seconds self)%Q ->
  unfinished n w ->
  (reading w (S n) < deadline w)%Q ->
  resp_status (response w n) = Some "Complete" ->
  resp_results (response w n) = Some results ->
  _get_metrics_results_sync (n + S fuel) self query_id w
  = (Return results,
     emit (EvGetQueryResults query_id (response w n))
       (tick_get_query_results
          (emit (EvTime (reading w (S n))) (tick_clock (after_unfinished n w))))).
Proof.
  intros Hint Hun Hin Hst Hres.
  rewrite sync_unfinished by done.
  apply Qlt_bool_true in Hin.
  rewrite <- (Nat.add_0_r n), <- after_unfinished_reading in Hin.
  rewrite <- (Nat.add_0_r n) in Hst, Hres.
  rewrite <- after_unfinished_response in Hst, Hres.
  rewrite <- (Nat.add_0_r n) at 2 3.
  rewrite <- after_unfinished_reading, <- after_unfinished_response.
  unfold reading, response in *. rewrite ?Nat.add_0_r in *.
  unfold bind at 1. cbn [poll_loop]. unfold bind at 1. cbn [time_time].
  rewrite Hin. unfold bind at 1. cbn -[String.eqb String.append].
  rewrite Hst. cbn -[String.append]. unfold bind at 1.
  cbn [get_query_results_responses n_get_query_results emit tick_clock
       tick_get_query_results].
  by rewrite Hres.
Qed.

(** ** The stages of a fetch *)

Lemma get_metrics_for_job_stages fuel job_name metric_type statistic
    job_start_time job_end_time stream_prefix w :
  get_metrics_for_job fuel self job_name metric_type statistic
                      job_start_time job_end_time stream_prefix w
  = (let* query_id := submit job_name job_start_time job_end_time stream_prefix in
     let* results := _get_metrics_results_sync fuel self query_id in
     _parse_log_query_results results metric_type statistic) w.
Proof.
  unfold get_metrics_for_job, submit, submitted_request, effective_end_time,
    effective_start_time, effective_prefix.
  destruct job_end_time as [e|]; [destruct (truthy_int (Some e)) eqn:He|];
    (destruct job_start_time as [s|]; [destruct (truthy_int (Some s)) eqn:Hs|]);
    (destruct stream_prefix as [p|]; [destruct (truthy_str (Some p)) eqn:Hp|]);
    reflexivity.
Qed.

Lemma submit_trace job_name job_start_time job_end_time stream_prefix w :
  trace (snd (submit job_name job_start_time job_end_time stream_prefix w))
  = trace w ++ submit_events job_name job_start_time job_end_time stream_prefix w.
Proof.
  unfold submit, submit_events, getitem.
  destruct (truthy_int job_end_time);
    destruct (_ !! "queryId"); cbn; by rewrite <- ?app_assoc.
Qed.

(** The same, with the trace and the number of status checks spelled out. *)
Lemma sync_completes_summary n fuel w results :
  n = 0 \/ (0 <= _poll_interval_seconds self)%Q ->
  unfinished n w ->
  (reading w (S n) < deadline w)%Q ->
  resp_status (response w n) = Some "Complete" ->
  resp_results (response w n) = Some results ->
  exists w',
    _get_metrics_results_sync (n + S fuel) self query_id w = (Return results, w')
    /\ trace w' = trace w ++ [EvTime (reading w 0)] ++ unfinished_events n w
                  ++ [EvTime (reading w (S n));
                      EvGetQueryResults query_id (response w n)]
    /\ n_get_query_results w' = n_get_query_results w + S n.
Proof.
  intros Hint Hun Hin Hst Hres.
  eexists. split; [by apply sync_completes|]. split.
  - cbn [trace emit tick_clock tick_get_query_results].
    rewrite after_unfinished_trace. by rewrite <- !app_assoc.
  - cbn [n_get_query_results emit tick_clock tick_get_query_results].
    destruct (after_unfinished_counters n w) as (_ & -> & _). lia.
Qed.

(** *** Failed and cancelled queries *)

Lemma no_failed_poll_fails_at_last handle r evs :
  no_failed_poll evs -> fails_at_last handle r evs.
Proof.
  intros Hno pre ev post q status -> Hev.
  apply Forall_app in Hno as [_ Hno]. apply Forall_cons in Hno as [Hno _].
  congruence.
Qed.

Lemma fails_at_last_prefix handle r evs1 evs2 :
  no_failed_poll evs1 -> fails_at_last handle r evs2 ->
  fails_at_last handle r (evs1 ++ evs2).
Proof.
  induction evs1 as [|ev1 evs1 IH]; intros Hno Hfail; [done|].
  apply Forall_cons in Hno as [Hev1 Hno].
  intros pre ev post q status Heq Hev.
  destruct pre as [|ev0 pre]; cbn in Heq; injection Heq as -> Heq.
  - congruence.
  - by apply (IH Hno Hfail pre ev post).
Qed.

Lemma fails_at_last_none handle evs :
  fails_at_last handle None evs -> no_failed_poll evs.
Proof.
  intros Hfail. apply Forall_forall. intros ev Hin.
  apply list_elem_of_split in Hin as (pre & post & ->).
  destruct (failed_poll ev) as [[q status]|] eqn:Hev; [|done].
  by destruct (Hfail pre ev post q status eq_refl Hev) as (_ & ? & _).
Qed.

Lemma poll_loop_fails_at_last fuel timeout_time w out w' :
  poll_loop fuel self query_id timeout_time w = (out, w') ->
  exists evs,
    trace w' = trace w ++ evs /\ fails_at_last query_id (raised out) evs.
Proof.
  revert w out w'. induction fuel as [|fuel IH]; intros w out w' Hrun.
  { injection Hrun as <- <-. exists []. split; [by rewrite app_nil_r|].
    apply no_failed_poll_fails_at_last. constructor. }
  cbn [poll_loop] in Hrun. unfold bind at 1 in Hrun. cbn [time_time] in Hrun.
  destruct (Qlt_bool _ _).
  2:{ injection Hrun as <- <-. eexists. split; [reflexivity|].
      apply no_failed_poll_fails_at_last. by repeat constructor. }
  unfold bind at 1 in Hrun. cbn [get_query_results] in Hrun.
  set (r := get_query_results_responses _ _) in Hrun.
  set (w2 := emit (EvGetQueryResults _ _) _) in Hrun.
  assert (trace w2 = trace w ++ [EvTime (clock w (n_clock w));
                                 EvGetQueryResults query_id r]) as Hw2.
  { subst w2. cbn. by rewrite <- app_assoc. }
  clearbody w2 r.
  assert (forall status, resp_status r = Some status -> failed_status status = false ->
          no_failed_poll [EvTime (clock w (n_clock w));
                          EvGetQueryResults query_id r : event']) as Hno_failed.
  { intros status Hst Hf. constructor; [done|]. constructor; [|done].
    cbn [failed_poll]. by rewrite Hst, Hf. }
  unfold bind at 1 in Hrun.
  destruct (resp_status r) as [status|] eqn:Hst; cbn [getattr_key ret raise] in Hrun.
  2:{ injection Hrun as <- <-. eexists. split; [exact Hw2|].
      apply no_failed_poll_fails_at_last.
      constructor; [done|]. constructor; [|done].
      cbn [failed_poll]. by rewrite Hst. }
  destruct (String.eqb status "Failed" || String.eqb status "Cancelled") eqn:Hfail.
  { injection Hrun as <- <-. eexists. split; [exact Hw2|].
    apply (fails_at_last_prefix _ _ [_] [_]); [by constructor|].
    intros pre ev post q st Heq Hev.
    destruct pre as [|? [|? ?]]; try discriminate Heq.
    injection Heq as <- <-. cbn [failed_poll] in Hev. rewrite Hst in Hev.
    unfold failed_status in Hev. rewrite Hfail in Hev. injection Hev as <- <-.
    done. }
  assert (no_failed_poll [EvTime (clock w (n_clock w));
                          EvGetQueryResults query_id r : event']) as Hno
    by (by apply (Hno_failed status)).
  destruct (String.eqb status "Complete").
  { unfold bind at 1 in Hrun.
    destruct (resp_results r); cbn [getattr_key ret raise] in Hrun;
      injection Hrun as <- <-;
      (eexists; split; [exact Hw2|by apply no_failed_poll_fails_at_last]). }
  unfold bind at 1, time_sleep in Hrun.
  destruct (Qlt_bool _ 0).
  { injection Hrun as <- <-.
    eexists. split; [exact Hw2|by apply no_failed_poll_fails_at_last]. }
  destruct (IH _ _ _ Hrun) as (evs & Htr & Hfails).
  exists ([EvTime (clock w (n_clock w)); EvGetQueryResults query_id r;
           EvSleep (_poll_interval_seconds self)] ++ evs).
  split.
  - rewrite Htr. cbn [trace emit]. rewrite Hw2. by rewrite <- !app_assoc.
  - apply fails_at_last_prefix; [|done].
    apply (Forall_app _ [_; _] [_]). split; [exact Hno|].
    constructor; [reflexivity|constructor].
Qed.

Lemma sync_fails_at_last fuel w out w' :
  _get_metrics_results_sync fuel self query_id w = (out, w') ->
  exists evs,
    trace w' = trace w ++ evs /\ fails_at_last query_id (raised out) evs.
Proof.
  unfold _get_metrics_results_sync. unfold bind at 1. cbn [time_time].
  set (w1 := emit _ _). set (dl := float_add _ _).
  unfold bind at 1.
  destruct (poll_loop fuel self query_id dl w1) as [o w''] eqn:Hloop.
  destruct (poll_loop_fails_at_last fuel dl w1 o w'' Hloop) as (evs & Htr & Hfails).
  assert (trace w'' = trace w ++ [EvTime (clock w (n_clock w))] ++ evs) as Htr'.
  { rewrite Htr. subst w1. cbn. by rewrite <- app_assoc. }
  destruct o as [[results|]|e|]; cbn [raised] in Hfails.
  - intros [= <- <-]. eexists. split; [exact Htr'|].
    apply no_failed_poll_fails_at_last. apply Forall_app. split.
    + by repeat constructor.
    + by apply (fails_at_last_none query_id).
  - intros [= <- <-].
    exists ([EvTime (clock w (n_clock w))] ++ evs
            ++ [EvWarning ("Timed out waiting for query " +:+ query_id +:+ ".")]).
    split.
    + cbn [trace emit]. rewrite Htr'. by rewrite <- !app_assoc.
    + apply no_failed_poll_fails_at_last. apply Forall_app. split.
      * by repeat constructor.
      * apply Forall_app. split; [by apply (fails_at_last_none query_id)|].
        by repeat constructor.
  - intros [= <- <-]. eexists. split; [exact Htr'|].
    apply fails_at_last_prefix; [by repeat constructor|done].
  - intros [= <- <-]. eexists. split; [exact Htr'|].
    apply no_failed_poll_fails_at_last. apply Forall_app. split.
    + by repeat constructor.
    + by apply (fails_at_last_none query_id).
Qed.

(** *** The events of the parsing stage *)

Lemma replay_app evs1 evs2 p :
  replay (evs1 ++ evs2) p = replay evs2 (replay evs1 p).
Proof. apply fold_left_app. Qed.

Lemma get_element_world name line (w : World') :
  snd (_get_element_from_log_line name line w) = w.
Proof.
  induction line as [|element line IH]; [done|].
  cbn [_get_element_from_log_line]. unfold bind at 1, getitem at 1.
  destruct (element !! "field") as [field|]; [|done]. cbn [ret].
  destruct (String.eqb field name); [|done].
  unfold bind, getitem. by destruct (element !! "value").
Qed.

Lemma parse_log_line_events line p w out w' :
  _parse_log_line line p w = (out, w') ->
  exists evs,
    trace w' = trace w ++ evs
    /\ Forall (fun ev => parser_event ev = true) evs
    /\ forall p', out = Return p' -> p' = replay evs p.
Proof.
  unfold _parse_log_line. unfold bind at 1.
  pose proof (get_element_world "@message" line w) as Hw.
  destruct (_get_element_from_log_line "@message" line w) as [[message| |] w1];
    cbn [snd] in Hw; subst w1.
  2,3: intros [= <- <-]; exists []; rewrite app_nil_r;
       (split; [done|split; [constructor|done]]).
  destruct (truthy_str message).
  2:{ intros [= <- <-]. exists []. rewrite app_nil_r.
      split; [done|]. split; [constructor|]. by intros p' [= <-]. }
  unfold bind at 1.
  pose proof (get_element_world "@timestamp" line w) as Hw.
  destruct (_get_element_from_log_line "@timestamp" line w) as [[timestamp| |] w1];
    cbn [snd] in Hw; subst w1.
  2,3: intros [= <- <-]; exists []; rewrite app_nil_r;
       (split; [done|split; [constructor|done]]).
  destruct message as [message|].
  - intros [= <- <-]. exists [EvParseLogMessage timestamp message].
    split; [done|]. split; [by repeat constructor|]. by intros p' [= <-].
  - intros [= <- <-]. exists []. rewrite app_nil_r.
    split; [done|]. split; [constructor|]. by intros p' [= <-].
Qed.

Lemma for_results_events results p w out w' :
  for_results results p w = (out, w') ->
  exists evs,
    trace w' = trace w ++ evs
    /\ Forall (fun ev => parser_event ev = true) evs
    /\ forall p', out = Return p' -> p' = replay evs p.
Proof.
  revert p w. induction results as [|result results IH]; intros p w.
  { intros [= <- <-]. exists []. rewrite app_nil_r.
    split; [done|]. split; [constructor|]. by intros p' [= <-]. }
  cbn [for_results]. unfold bind at 1.
  destruct (_parse_log_line result p w) as [o w1] eqn:Hline.
  destruct (parse_log_line_events _ _ _ _ _ Hline) as (evs1 & Htr1 & Hev1 & Hp1).
  destruct o as [p1| |].
  2,3: intros [= <- <-]; exists evs1; (split; [done|split; [done|done]]).
  intros Hrest.
  destruct (IH _ _ Hrest) as (evs2 & Htr2 & Hev2 & Hp2).
  exists (evs1 ++ evs2). split; [|split].
  - rewrite Htr2, Htr1. by rewrite <- app_assoc.
  - by apply Forall_app.
  - intros p' Hout. rewrite replay_app, <- (Hp1 p1 eq_refl). by apply Hp2.
Qed.

Lemma parse_log_query_results_events results metric_type statistic w out w' :
  _parse_log_query_results results metric_type statistic w = (out, w') ->
  exists evs,
    trace w' = trace w ++ evs
    /\ Forall (fun ev => parser_event ev = true) evs
    /\ forall table,
         out = Return table ->
         table = get_parsed_metrics metric_type statistic (replay evs parser_new).
Proof.
  unfold _parse_log_query_results. unfold bind at 1.
  cbn [LogMetricsParser_new]. unfold bind at 1.
  destruct (for_results results parser_new (emit EvParserNew w)) as [o w1] eqn:Hfor.
  destruct (for_results_events _ _ _ _ _ Hfor) as (evs & Htr & Hev & Hp).
  destruct o as [p1| |].
  2,3: intros [= <- <-]; exists (EvParserNew :: evs);
       (split; [rewrite Htr; cbn; by rewrite <- app_assoc|]);
       (split; [by constructor|done]).
  intros [= <- <-].
  exists (EvParserNew :: evs ++ [EvGetParsedMetrics metric_type statistic]).
  split; [|split].
  - cbn [trace emit]. rewrite Htr. cbn. by rewrite <- !app_assoc.
  - constructor; [done|]. apply Forall_app. split; [done|by repeat constructor].
  - intros table [= <-]. f_equal.
    change (EvParserNew :: evs ++ [EvGetParsedMetrics metric_type statistic])
      with ([EvParserNew] ++ evs ++ [EvGetParsedMetrics metric_type statistic]).
    rewrite !replay_app. cbn. by apply Hp.
Qed.

(** *** Extraction and ingestion on well-formed records *)

Lemma emits_trace evs (w : World') : trace (emits evs w) = trace w ++ evs.
Proof.
  revert w. induction evs as [|ev evs IH]; intros w; cbn.
  - by rewrite app_nil_r.
  - rewrite IH. cbn. by rewrite <- app_assoc.
Qed.

Lemma emits_app evs1 evs2 (w : World') :
  emits (evs1 ++ evs2) w = emits evs2 (emits evs1 w).
Proof. apply fold_left_app. Qed.

Lemma get_element_ok name line (w : World') :
  well_formed_line line ->
  _get_element_from_log_line name line w = (Return (element_of name line), w).
Proof.
  induction 1 as [|element line [[field Hf] [value Hv]] _ IH]; [done|].
  cbn [_get_element_from_log_line element_of].
  unfold bind at 1, getitem at 1. rewrite Hf. cbn [ret].
  destruct (String.eqb field name) eqn:E.
  - apply String.eqb_eq in E as ->. rewrite bool_decide_eq_true_2 by done.
    unfold bind, getitem. by rewrite Hv.
  - apply String.eqb_neq in E. rewrite bool_decide_eq_false_2 by congruence.
    exact IH.
Qed.

Lemma has_field_element_of name line :
  has_field name line = false -> element_of name line = None.
Proof.
  induction line as [|element line IH]; [done|]. cbn.
  destruct (bool_decide _); [done|]. exact IH.
Qed.

Lemma parse_log_line_ok line p (w : World') :
  well_formed_line line ->
  _parse_log_line line p w
  = if retained line
    then (Return (parse_log_message (element_of "@timestamp" line)
                                    (default "" (element_of "@message" line)) p),
          emit (ingest_call line) w)
    else (Return p, w).
Proof.
  intros Hwf. unfold _parse_log_line, retained.
  unfold bind at 1. rewrite get_element_ok by done.
  destruct (truthy_str (element_of "@message" line)) eqn:Hm; [|done].
  unfold bind at 1. rewrite get_element_ok by done.
  unfold ingest_call. by destruct (element_of "@message" line).
Qed.

Lemma for_results_ok results p (w : World') :
  Forall well_formed_line results ->
  for_results results p w
  = (Return (replay (ingest_events results) p), emits (ingest_events results) w).
Proof.
  intros Hwf. revert p w.
  induction Hwf as [|line results Hline _ IH]; intros p w; [done|].
  cbn [for_results]. unfold bind at 1. rewrite parse_log_line_ok by done.
  unfold ingest_events. cbn [List.filter].
  destruct (retained line); cbn [map]; by rewrite IH.
Qed.

Lemma parse_log_query_results_ok results metric_type statistic (w : World') :
  Forall well_formed_line results ->
  _parse_log_query_results results metric_type statistic w
  = (Return (get_parsed_metrics metric_type statistic
               (replay (ingest_events results) parser_new)),
     emits ([EvParserNew] ++ ingest_events results
            ++ [EvGetParsedMetrics metric_type statistic]) w).
Proof.
  intros Hwf. unfold _parse_log_query_results.
  unfold bind at 1. cbn [LogMetricsParser_new].
  unfold bind at 1. rewrite for_results_ok by done.
  by rewrite !emits_app.
Qed.

Lemma for_results_app results1 results2 p (w : World') :
  for_results (results1 ++ results2) p w
  = (let* p' := for_results results1 p in for_results results2 p') w.
Proof.
  revert p w. induction results1 as [|line results1 IH]; intros p w; [done|].
  cbn [app for_results]. unfold bind.
  destruct (_parse_log_line line p w) as [[p1|e|] w1]; [|done..].
  rewrite IH. reflexivity.
Qed.

(** *** The loop, one iteration at a time *)

Lemma poll_loop_S fuel timeout_time (w : World') :
  poll_loop (S fuel) self query_id timeout_time w
  = poll_iteration fuel timeout_time w.
Proof.
  unfold poll_iteration. cbn [poll_loop]. unfold bind at 1. cbn [time_time].
  destruct (Qlt_bool _ _); [|reflexivity].
  unfold bind at 1. cbn [get_query_results].
  cbn [get_query_results_responses n_get_query_results emit tick_clock].
  unfold bind at 1.
  destruct (resp_status _) as [status|]; [|reflexivity]. cbn [getattr_key ret].
  unfold failed_status, retrieval_error.
  destruct (String.eqb status "Failed" || String.eqb status "Cancelled");
    [reflexivity|].
  destruct (String.eqb status "Complete").
  { unfold bind at 1. by destruct (resp_results _). }
  unfold bind at 1, time_sleep. by destruct (Qlt_bool _ 0).
Qed.

Lemma poll_loop_poller_events fuel timeout_time (w : World') :
  exists evs,
    trace (snd (poll_loop fuel self query_id timeout_time w)) = trace w ++ evs
    /\ Forall (fun ev => poller_event ev = true) evs.
Proof.
  revert w. induction fuel as [|fuel IH]; intros w.
  { exists []. split; [by rewrite app_nil_r|constructor]. }
  rewrite poll_loop_S. unfold poll_iteration.
  set (now := clock w (n_clock w)).
  set (r := get_query_results_responses w (n_get_query_results w)).
  assert (exists evs, trace w ++ [EvTime now; EvGetQueryResults query_id r]
                      = trace w ++ evs
                      /\ Forall (fun ev : event' => poller_event ev = true) evs) as Hstop.
  { eexists. split; [reflexivity|by repeat constructor]. }
  destruct (Qlt_bool now timeout_time).
  2:{ eexists. split; [reflexivity|by repeat constructor]. }
  destruct (resp_status r) as [status|];
    [|cbn [snd trace emit tick_clock tick_get_query_results];
      by rewrite <- app_assoc].
  destruct (failed_status status);
    [cbn [snd trace emit tick_clock tick_get_query_results];
     by rewrite <- app_assoc|].
  destruct (String.eqb status "Complete").
  { destruct (resp_results r);
      cbn [snd trace emit tick_clock tick_get_query_results];
      by rewrite <- app_assoc. }
  destruct (Qlt_bool _ 0);
    [cbn [snd trace emit tick_clock tick_get_query_results];
     by rewrite <- app_assoc|].
  match goal with |- context [poll_loop fuel self query_id timeout_time ?w2] =>
    destruct (IH w2) as (evs & -> & Hevs) end.
  exists ([EvTime now; EvGetQueryResults query_id r;
           EvSleep (_poll_interval_seconds self)] ++ evs).
  split.
  - cbn [trace emit tick_clock tick_get_query_results]. by rewrite <- !app_assoc.
  - apply Forall_app. split; [by repeat constructor|done].
Qed.

Lemma sync_poller_events fuel (w : World') :
  exists evs,
    trace (snd (_get_metrics_results_sync fuel self query_id w)) = trace w ++ evs
    /\ Forall (fun ev => poller_event ev = true) evs.
Proof.
  unfold _get_metrics_results_sync. unfold bind at 1. cbn [time_time].
  set (w1 := emit _ _). set (dl := float_add _ _). unfold bind at 1.
  destruct (poll_loop_poller_events fuel dl w1) as (evs & Htr & Hevs).
  destruct (poll_loop fuel self query_id dl w1) as [[[results|]|e|] w2];
    cbn [snd] in Htr.
  - exists (EvTime (clock w (n_clock w)) :: evs). split; [|by constructor].
    cbn [ret snd]. rewrite Htr. subst w1. cbn. by rewrite <- app_assoc.
  - exists (EvTime (clock w (n_clock w)) :: evs
            ++ [EvWarning ("Timed out waiting for query " +:+ query_id +:+ ".")]).
    split.
    + unfold bind. cbn [logger_warning ret snd trace emit].
      rewrite Htr. subst w1. cbn. by rewrite <- !app_assoc.
    + constructor; [done|]. apply Forall_app. split; [done|by repeat constructor].
  - exists (EvTime (clock w (n_clock w)) :: evs). split; [|by constructor].
    cbn [snd]. rewrite Htr. subst w1. cbn. by rewrite <- app_assoc.
  - exists (EvTime (clock w (n_clock w)) :: evs). split; [|by constructor].
    cbn [snd]. rewrite Htr. subst w1. cbn. by rewrite <- app_assoc.
Qed.

(** *** The parsing stage does not look at the world *)

Lemma get_element_const name line :
  exists o, forall w : World', _get_element_from_log_line name line w = (o, w).
Proof.
  induction line as [|element line [o IH]].
  { by exists (Return None). }
  cbn [_get_element_from_log_line]. unfold bind, getitem.
  destruct (element !! "field") as [field|]; [|by eexists]. cbn [ret].
  destruct (String.eqb field name); [|by exists o].
  destruct (element !! "value"); by eexists.
Qed.

Lemma parse_log_line_const line p :
  exists o evs, forall w : World', _parse_log_line line p w = (o, emits evs w).
Proof.
  unfold _parse_log_line.
  destruct (get_element_const "@message" line) as [om Hm].
  destruct (get_element_const "@timestamp" line) as [ot Ht].
  destruct om as [message|e|].
  2,3: eexists _, []; intros w; unfold bind; by rewrite Hm.
  destruct (truthy_str message) eqn:Htruthy.
  2:{ exists (Return p), []. intros w. unfold bind. by rewrite Hm, Htruthy. }
  destruct ot as [timestamp|e|].
  2,3: eexists _, []; intros w; unfold bind; by rewrite Hm, Htruthy, Ht.
  destruct message as [message|].
  - eexists _, [_]. intros w. unfold bind. rewrite Hm, Htruthy, Ht. reflexivity.
  - exists (Return p), []. intros w. unfold bind. by rewrite Hm, Htruthy, Ht.
Qed.

Lemma for_results_const results p :
  exists o evs, forall w : World', for_results results p w = (o, emits evs w).
Proof.
  revert p. induction results as [|line results IH]; intros p.
  { by exists (Return p), []. }
  destruct (parse_log_line_const line p) as (o1 & evs1 & H1).
  cbn [for_results]. destruct o1 as [p1|e|].
  2,3: eexists _, evs1; intros w; unfold bind; by rewrite H1.
  destruct (IH p1) as (o2 & evs2 & H2).
  exists o2, (evs1 ++ evs2). intros w. unfold bind. by rewrite H1, H2, emits_app.
Qed.

Lemma parse_log_query_results_const results metric_type statistic :
  exists o evs, forall w : World',
    _parse_log_query_results results metric_type statistic w = (o, emits evs w).
Proof.
  destruct (for_results_const results parser_new) as (o & evs & H).
  unfold _parse_log_query_results. destruct o as [p|e|].
  - eexists _, ([EvParserNew] ++ evs ++ [_]). intros w.
    unfold bind. cbn [LogMetricsParser_new]. rewrite H.
    rewrite !emits_app. reflexivity.
  - eexists _, ([EvParserNew] ++ evs). intros w.
    unfold bind. cbn [LogMetricsParser_new]. rewrite H. by rewrite emits_app.
  - eexists _, ([EvParserNew] ++ evs). intros w.
    unfold bind. cbn [LogMetricsParser_new]. rewrite H. by rewrite emits_app.
Qed.

(** *** Worlds that answer alike *)

Lemma emits_oracles evs (w : World') :
  clock (emits evs w) = clock w
  /\ n_clock (emits evs w) = n_clock w
  /\ start_query_responses (emits evs w) = start_query_responses w
  /\ n_start_query (emits evs w) = n_start_query w
  /\ get_query_results_responses (emits evs w) = get_query_results_responses w
  /\ n_get_query_results (emits evs w) = n_get_query_results w.
Proof.
  revert w. induction evs as [|ev evs IH]; intros w; [done|].
  cbn [emits fold_left]. apply (IH (emit ev w)).
Qed.

Lemma same_service_emit a b ea eb :
  same_service a b -> same_service (emit ea a) (emit eb b).
Proof. intros H. exact H. Qed.

Lemma same_service_emits a b evs_a evs_b :
  same_service a b -> same_service (emits evs_a a) (emits evs_b b).
Proof.
  unfold same_service, handle_response, response.
  destruct (emits_oracles evs_a a) as (_ & _ & -> & -> & -> & ->).
  by destruct (emits_oracles evs_b b) as (_ & _ & -> & -> & -> & ->).
Qed.

Lemma same_service_tick_clock a b :
  same_service a b -> same_service (tick_clock a) (tick_clock b).
Proof. intros H. exact H. Qed.

Lemma same_service_tick_start_query a b :
  same_service a b -> same_service (tick_start_query a) (tick_start_query b).
Proof.
  intros (Hs & Hr). split; [|done].
  intros i. specialize (Hs (S i)). unfold handle_response in *. cbn.
  by rewrite <- !Nat.add_succ_r.
Qed.

Lemma same_service_tick_get_query_results a b :
  same_service a b ->
  same_service (tick_get_query_results a) (tick_get_query_results b).
Proof.
  intros (Hs & Hr). split; [done|].
  intros i. specialize (Hr (S i)). unfold response in *. cbn.
  by rewrite <- !Nat.add_succ_r.
Qed.

Lemma poll_loop_same_service fuel ta tb (a b : World') :
  same_service a b -> same_tests fuel ta tb a b ->
  fst (poll_loop fuel self query_id tb b) = fst (poll_loop fuel self query_id ta a)
  /\ same_service (snd (poll_loop fuel self query_id ta a))
                  (snd (poll_loop fuel self query_id tb b)).
Proof.
  revert a b. induction fuel as [|fuel IH]; intros a b Hsame Htests; [done|].
  rewrite !poll_loop_S. unfold poll_iteration.
  pose proof (Htests 0 ltac:(lia)) as Ht. pose proof Hsame as (_ & Hr).
  specialize (Hr 0). unfold reading, response in Ht, Hr.
  rewrite !Nat.add_0_r in Ht, Hr. rewrite Ht, Hr.
  set (r := get_query_results_responses a (n_get_query_results a)).
  assert (same_service (emit (EvTime (clock a (n_clock a))) (tick_clock a))
                       (emit (EvTime (clock b (n_clock b))) (tick_clock b))) as H1
    by (by apply same_service_emit, same_service_tick_clock).
  assert (same_service
            (emit (EvGetQueryResults query_id r)
               (tick_get_query_results
                  (emit (EvTime (clock a (n_clock a))) (tick_clock a))))
            (emit (EvGetQueryResults query_id r)
               (tick_get_query_results
                  (emit (EvTime (clock b (n_clock b))) (tick_clock b))))) as H2
    by (by apply same_service_emit, same_service_tick_get_query_results).
  destruct (Qlt_bool _ ta); [|done].
  destruct (resp_status r) as [status|]; [|done].
  destruct (failed_status status); [done|].
  destruct (String.eqb status "Complete"); [by destruct (resp_results r)|].
  destruct (Qlt_bool _ 0); [done|].
  apply IH; [by apply same_service_emit|].
  intros i Hi. specialize (Htests (S i) ltac:(lia)).
  unfold reading in *. cbn. by rewrite <- !Nat.add_succ_r.
Qed.

Lemma sync_unfold fuel (w : World') :
  _get_metrics_results_sync fuel self query_id w
  = match poll_loop fuel self query_id
            (float_add (clock w (n_clock w)) (_poll_timeout_seconds self))
            (emit (EvTime (clock w (n_clock w))) (tick_clock w)) with
    | (Return (Some results), w2) => (Return results, w2)
    | (Return None, w2) =>
        (Return [],
         emit (EvWarning ("Timed out waiting for query " +:+ query_id +:+ ".")) w2)
    | (Raise e, w2) => (Raise e, w2)
    | (OutOfFuel, w2) => (OutOfFuel, w2)
    end.
Proof.
  unfold _get_metrics_results_sync. unfold bind at 1. cbn [time_time].
  unfold bind at 1.
  by destruct (poll_loop _ _ _ _ _) as [[[results|]|e|] w2].
Qed.

Lemma sync_same_service fuel (a b : World') :
  same_service a b ->
  (forall i, i < fuel ->
     Qlt_bool (reading b (S i)) (deadline b) = Qlt_bool (reading a (S i)) (deadline a)) ->
  fst (_get_metrics_results_sync fuel self query_id b)
  = fst (_get_metrics_results_sync fuel self query_id a)
  /\ same_service (snd (_get_metrics_results_sync fuel self query_id a))
                  (snd (_get_metrics_results_sync fuel self query_id b)).
Proof.
  intros Hsame Htests. rewrite !sync_unfold.
  assert (same_service (emit (EvTime (clock a (n_clock a))) (tick_clock a))
                       (emit (EvTime (clock b (n_clock b))) (tick_clock b))) as H1
    by (by apply same_service_emit, same_service_tick_clock).
  assert (same_tests fuel
            (float_add (clock a (n_clock a)) (_poll_timeout_seconds self))
            (float_add (clock b (n_clock b)) (_poll_timeout_seconds self))
            (emit (EvTime (clock a (n_clock a))) (tick_clock a))
            (emit (EvTime (clock b (n_clock b))) (tick_clock b))) as H2.
  { intros i Hi. specialize (Htests i Hi).
    unfold deadline, reading in *. rewrite !Nat.add_0_r in Htests.
    cbn. by rewrite !Nat.add_succ_r in Htests. }
  destruct (poll_loop_same_service fuel _ _ _ _ H1 H2) as [Hout Hw].
  destruct (poll_loop fuel self query_id _ (emit _ (tick_clock a)))
    as [oa wa], (poll_loop fuel self query_id _ (emit _ (tick_clock b))) as [ob wb].
  cbn [fst snd] in Hout, Hw. subst ob.
  by destruct oa as [[results|]|e|].
Qed.

Lemma submit_same_service job_name job_start_time job_end_time stream_prefix
    (a b : World') :
  same_service a b ->
  fst (submit job_name job_start_time job_end_time stream_prefix b)
  = fst (submit job_name job_start_time job_end_time stream_prefix a)
  /\ same_service (snd (submit job_name job_start_time job_end_time stream_prefix a))
                  (snd (submit job_name job_start_time job_end_time stream_prefix b)).
Proof.
  intros Hsame. unfold submit, getitem.
  pose proof Hsame as (Hs & _). specialize (Hs 0).
  unfold handle_response in Hs. rewrite !Nat.add_0_r in Hs. rewrite Hs.
  assert (same_service
            (if truthy_int job_end_time then a
             else emit (EvTime (clock a (n_clock a))) (tick_clock a))
            (if truthy_int job_end_time then b
             else emit (EvTime (clock b (n_clock b))) (tick_clock b))) as H1.
  { destruct (truthy_int job_end_time); [done|].
    by apply same_service_emit, same_service_tick_clock. }
  destruct (start_query_responses a (n_start_query a) !! "queryId");
    cbn [ret raise fst snd]; (split; [done|]);
    by apply same_service_emit, same_service_tick_start_query.
Qed.

(** The readings that follow the submission. *)
Lemma submit_reading job_name job_start_time job_end_time stream_prefix
    (w : World') i :
  reading (snd (submit job_name job_start_time job_end_time stream_prefix w)) i
  = reading w (submission_clock_reads job_end_time + i).
Proof.
  unfold submit, getitem, submission_clock_reads, reading.
  destruct (truthy_int job_end_time);
    destruct (start_query_responses w (n_start_query w) !! "queryId");
    cbn; by rewrite <- ?Nat.add_succ_r.
Qed.

End Theory.

(** ** The completion poller *)

(** The deadline is a rounded sum: the float nearest to 0.1 plus 10 is
    the float nearest to 10.1, so a loop test at that reading fails, and
    a query that would be Complete at the third check is given up after
    two. *)
Lemma rounded_deadline_ends_polling :
  let self := mkFetcher 10 1 in
  let w := example_world rounding_clock
             [running; running; complete_with_energy] running in
  (float_add (round64 (1 # 10)) 10 == round64 (101 # 10))%Q
  /\ (round64 (101 # 10) < round64 (1 # 10) + 10)%Q
  /\ fst (_get_metrics_results_sync 5 self "q-1" w) = Return []
  /\ n_get_query_results (snd (_get_metrics_results_sync 5 self "q-1" w)) = 2.
Proof.
  intros self w. repeat split; vm_compute; reflexivity.
Qed.




(** C3: with an interval of 1 s and a timeout of 10 s, when the service
    answers Running, Running, Complete and the three loop tests find the
    clock below the deadline, which is the float sum of the first reading
    and the timeout, the poller makes exactly three status checks, sleeps
    one interval after each of the first two, and returns the records of
    the third response. *)
Theorem three_checks_then_results
    {MetricType MetricStatistic : Type}
    (query_id : string) (results : list LogLine) (fuel : nat)
    (w : World MetricType MetricStatistic) :
  let self := mkFetcher 10 1 in
  resp_status (response w 0) = Some "Running" ->
  resp_status (response w 1) = Some "Running" ->
  resp_status (response w 2) = Some "Complete" ->
  resp_results (response w 2) = Some results ->
  (reading w 1 < float_add (reading w 0) 10)%Q ->
  (reading w 2 < float_add (reading w 0) 10)%Q ->
  (reading w 3 < float_add (reading w 0) 10)%Q ->
  3 <= fuel ->
  exists w',
    _get_metrics_results_sync fuel self query_id w = (Return results, w')
    /\ trace w' = trace w ++ [EvTime (reading w 0);
                              EvTime (reading w 1);
                              EvGetQueryResults query_id (response w 0);
                              EvSleep 1;
                              EvTime (reading w 2);
                              EvGetQueryResults query_id (response w 1);
                              EvSleep 1;
                              EvTime (reading w 3);
                              EvGetQueryResults query_id (response w 2)]
    /\ n_get_query_results w' = n_get_query_results w + 3.
Proof.
  intros self H0 H1 H2 Hres T1 T2 T3 Hfuel.
  assert (unfinished self 2 w) as Hun.
  { intros i Hi. unfold still_running.
    destruct i as [|[|i]]; [rewrite H0|rewrite H1|lia];
      (split; [assumption|reflexivity]). }
  assert (0 <= _poll_interval_seconds self)%Q as Hint by (cbn; lra).
  destruct (sync_completes_summary self query_id 2 (fuel - 3) w results
              (or_intror Hint) Hun T3 H2 Hres) as (w' & Hrun & Htr & Hn).
  exists w'. split; [|split].
  - replace fuel with (2 + S (fuel - 3)) by lia. exact Hrun.
  - rewrite Htr. reflexivity.
  - rewrite Hn. lia.
Qed.

Lemma three_checks_then_results_witness :
  let w := example_world sleeping_clock
             [running; running;
              mkQueryResults (Some "Complete")
                (Some [[result_field "@message" "Metrics - energy=0.1"]])]
             running in
  exists w',
    _get_metrics_results_sync 3 (mkFetcher 10 1) "q-1" w
    = (Return [[result_field "@message" "Metrics - energy=0.1"]], w')
    /\ n_get_query_results w' = 3.
Proof.
  intros w.
  destruct (three_checks_then_results "q-1"
              [[result_field "@message" "Metrics - energy=0.1"]] 3 w)
    as (w' & Hrun & _ & Hn).
  - reflexivity.
  - reflexivity.
  - reflexivity.
  - reflexivity.
  - vm_compute. reflexivity.
  - vm_compute. reflexivity.
  - vm_compute. reflexivity.
  - lia.
  - exists w'. split; [exact Hrun|exact Hn].
Defined.

(** C10: with a timeout that is zero or negative, on a clock whose first
    reading is a float and which does not run backwards between its first
    two readings, the poller makes no status check at all, whatever the
    service would have answered: it logs the warning and returns the empty
    list, and the fetch returns the table of a parser that ingested
    nothing. *)
Theorem nonpositive_timeout_never_polls
    {MetricType MetricStatistic MetricsTable : Type}
    {P : LogMetricsParser MetricType MetricStatistic MetricsTable}
    (self : CwlInsightsMetricsFetcher) (job_name : string)
    (metric_type : MetricType) (statistic : MetricStatistic)
    (job_start_time job_end_time : option Z) (stream_prefix : option string)
    (query_id : string) (fuel : nat) (w0 w : World MetricType MetricStatistic) :
  submit job_name job_start_time job_end_time stream_prefix w0 = (Return query_id, w) ->
  (_poll_timeout_seconds self <= 0)%Q ->
  is_float (reading w 0) ->
  (reading w 0 <= reading w 1)%Q ->
  0 < fuel ->
  exists w',
    _get_metrics_results_sync fuel self query_id w = (Return [], w')
    /\ trace w' = trace w ++ [EvTime (reading w 0); EvTime (reading w 1);
                              EvWarning ("Timed out waiting for query "
                                         +:+ query_id +:+ ".")]
    /\ n_get_query_results w' = n_get_query_results w
    /\ get_metrics_for_job fuel self job_name metric_type statistic
                           job_start_time job_end_time stream_prefix w0
       = (Return (get_parsed_metrics metric_type statistic parser_new),
          emit (EvGetParsedMetrics metric_type statistic) (emit EvParserNew w')).
Proof.
  intros Hsub Hto Hfloat Hclock Hfuel.
  assert (deadline self w <= reading w 1)%Q as Hout.
  { unfold deadline. pose proof (float_add_nonpos _ _ Hfloat Hto). lra. }
  assert (unfinished self 0 w) as Hun by (intros i Hi; lia).
  destruct fuel as [|fuel]; [lia|].
  change (S fuel) with (0 + S fuel).
  eexists. split; [apply sync_times_out; [by left|done|done]|].
  split; [|split].
  - cbn. by rewrite <- !app_assoc.
  - reflexivity.
  - rewrite get_metrics_for_job_stages. unfold bind at 1. rewrite Hsub.
    unfold bind at 1. by rewrite sync_times_out; [|left|..].
Qed.

Lemma nonpositive_timeout_never_polls_witness :
  let self := mkFetcher 0 1 in
  let failed := mkQueryResults (Some "Failed") None in
  let w0 := example_world sleeping_clock [] failed in
  exists w',
    get_metrics_for_job (P := recording_parser _ _) 1 self "job-1" TIMESTAMP MAX
                        None None None w0
    = (Return (TIMESTAMP, MAX, []), w')
    /\ n_get_query_results w' = 0.
Proof.
  intros self failed w0.
  destruct (nonpositive_timeout_never_polls (P := recording_parser _ _)
              self "job-1" TIMESTAMP MAX None None None "q-1" 1
              w0 (snd (submit "job-1" None None None w0)))
    as (w' & _ & _ & Hn & Hfetch).
  - reflexivity.
  - vm_compute. discriminate.
  - vm_compute. reflexivity.
  - vm_compute. discriminate.
  - lia.
  - eexists. split; [exact Hfetch|exact Hn].
Defined.

(** ** The fetch as a whole *)

Section Fetch.
Context {MetricType MetricStatistic MetricsTable : Type}.
Context {P : LogMetricsParser MetricType MetricStatistic MetricsTable}.

Local Abbreviation World' := (World MetricType MetricStatistic).
Local Abbreviation event' := (event MetricType MetricStatistic).

Lemma submit_events_no_failed_poll job_name job_start_time job_end_time
    stream_prefix (w : World') :
  no_failed_poll (submit_events job_name job_start_time job_end_time stream_prefix w).
Proof.
  unfold submit_events. destruct (truthy_int job_end_time); by repeat constructor.
Qed.

Lemma parser_events_no_failed_poll (evs : list event') :
  Forall (fun ev => parser_event ev = true) evs -> no_failed_poll evs.
Proof.
  intros H. unfold no_failed_poll. eapply Forall_impl; [exact H|].
  intros ev Hev. by destruct ev.
Qed.

(** The events of one fetch: a failed status check among them is the last
    of them, asked for the handle that the submission returned, and
    decides the exception. *)
Lemma fetch_fails_at_last fuel self job_name metric_type statistic
    job_start_time job_end_time stream_prefix (w : World') out w' :
  get_metrics_for_job fuel self job_name metric_type statistic
                      job_start_time job_end_time stream_prefix w = (out, w') ->
  exists evs,
    trace w' = trace w ++ evs
    /\ forall pre ev post q status,
         evs = pre ++ ev :: post ->
         failed_poll ev = Some (q, status) ->
         post = [] /\ out = Raise (retrieval_error q status)
         /\ fst (submit job_name job_start_time job_end_time stream_prefix w)
            = Return q.
Proof.
  rewrite get_metrics_for_job_stages. unfold bind at 1.
  pose proof (submit_trace job_name job_start_time job_end_time stream_prefix w) as Htr1.
  pose proof (submit_events_no_failed_poll job_name job_start_time job_end_time
                stream_prefix w) as Hno1.
  set (evs1 := submit_events _ _ _ _ _) in *. clearbody evs1.
  destruct (submit job_name job_start_time job_end_time stream_prefix w)
    as [[query_id|e|] w1]; cbn [fst snd] in *.
  2,3: intros [= <- <-]; exists evs1; split; [done|];
       intros pre ev post q status Heq Hev;
       by destruct (no_failed_poll_fails_at_last "" None evs1 Hno1 _ _ _ _ _ Heq Hev)
         as (_ & ? & _).
  unfold bind at 1.
  destruct (_get_metrics_results_sync fuel self query_id w1) as [o2 w2] eqn:Hsync.
  destruct (sync_fails_at_last _ _ _ _ _ _ Hsync) as (evs2 & Htr2 & Hfail2).
  destruct o2 as [results|e|]; cbn [raised] in Hfail2.
  - intros Hparse.
    destruct (parse_log_query_results_events _ _ _ _ _ _ Hparse)
      as (evs3 & Htr3 & Hev3 & _).
    exists (evs1 ++ evs2 ++ evs3). split.
    { rewrite Htr3, Htr2, Htr1. by rewrite <- !app_assoc. }
    intros pre ev post q status Heq Hev.
    assert (no_failed_poll (evs1 ++ evs2 ++ evs3)) as Hno.
    { apply Forall_app. split; [done|]. apply Forall_app. split.
      - by apply (fails_at_last_none query_id).
      - by apply parser_events_no_failed_poll. }
    by destruct (no_failed_poll_fails_at_last "" None _ Hno _ _ _ _ _ Heq Hev)
      as (_ & ? & _).
  - intros [= <- <-]. exists (evs1 ++ evs2). split.
    { rewrite Htr2, Htr1. by rewrite <- !app_assoc. }
    intros pre ev post q status Heq Hev.
    destruct (fails_at_last_prefix _ _ _ _ Hno1 Hfail2 _ _ _ _ _ Heq Hev)
      as (-> & [= ->] & ->).
    done.
  - intros [= <- <-]. exists (evs1 ++ evs2). split.
    { rewrite Htr2, Htr1. by rewrite <- !app_assoc. }
    intros pre ev post q status Heq Hev.
    assert (no_failed_poll (evs1 ++ evs2)) as Hno.
    { apply Forall_app. split; [done|]. by apply (fails_at_last_none query_id). }
    by destruct (no_failed_poll_fails_at_last "" None _ Hno _ _ _ _ _ Heq Hev)
      as (_ & ? & _).
Qed.
(** The events of one fetch, stage by stage, and the table as the
    finalisation of a new parser that was given this call's lines. *)
Lemma fetch_events fuel self job_name metric_type statistic
    job_start_time job_end_time stream_prefix (w : World') :
  exists evs2 evs3,
    trace (snd (get_metrics_for_job fuel self job_name metric_type statistic
                  job_start_time job_end_time stream_prefix w))
    = trace w ++ submit_events job_name job_start_time job_end_time stream_prefix w
      ++ evs2 ++ evs3
    /\ Forall (fun ev => poller_event ev = true) evs2
    /\ Forall (fun ev => parser_event ev = true) evs3
    /\ forall table,
         fst (get_metrics_for_job fuel self job_name metric_type statistic
                job_start_time job_end_time stream_prefix w) = Return table ->
         table = get_parsed_metrics metric_type statistic (replay evs3 parser_new).
Proof.
  rewrite get_metrics_for_job_stages. unfold bind.
  pose proof (submit_trace job_name job_start_time job_end_time stream_prefix w) as Htr1.
  set (evs1 := submit_events _ _ _ _ _) in *. clearbody evs1.
  destruct (submit job_name job_start_time job_end_time stream_prefix w)
    as [[handle|e|] w1]; cbn [fst snd] in *.
  2,3: exists [], []; rewrite !app_nil_r; repeat split; try done; constructor.
  destruct (sync_poller_events self handle fuel w1) as (evs2 & Htr2 & Hev2).
  destruct (_get_metrics_results_sync fuel self handle w1) as [[results|e|] w2];
    cbn [fst snd] in *.
  2,3: exists evs2, []; rewrite !app_nil_r; repeat split; try done;
       try constructor; by rewrite Htr2, Htr1, <- app_assoc.
  destruct (_parse_log_query_results results metric_type statistic w2)
    as [o w3] eqn:Hparse.
  destruct (parse_log_query_results_events _ _ _ _ _ _ Hparse)
    as (evs3 & Htr3 & Hev3 & Htable).
  exists evs2, evs3. cbn [fst snd].
  split; [by rewrite Htr3, Htr2, Htr1, <- !app_assoc|]. done.
Qed.

(** A fetch in a world that answers alike, with loop tests that come out
    alike, ends alike. *)
Lemma fetch_same_service fuel self job_name metric_type statistic
    job_start_time job_end_time stream_prefix (a b : World') :
  same_service a b ->
  same_loop_tests self fuel job_end_time a b ->
  fst (get_metrics_for_job fuel self job_name metric_type statistic
         job_start_time job_end_time stream_prefix b)
  = fst (get_metrics_for_job fuel self job_name metric_type statistic
           job_start_time job_end_time stream_prefix a)
  /\ same_service
       (snd (get_metrics_for_job fuel self job_name metric_type statistic
               job_start_time job_end_time stream_prefix a))
       (snd (get_metrics_for_job fuel self job_name metric_type statistic
               job_start_time job_end_time stream_prefix b)).
Proof.
  intros Hsame Htests. rewrite !get_metrics_for_job_stages.
  destruct (submit_same_service job_name job_start_time job_end_time
              stream_prefix a b Hsame) as [Hout1 H1].
  pose proof (submit_reading job_name job_start_time job_end_time stream_prefix a)
    as Ra.
  pose proof (submit_reading job_name job_start_time job_end_time stream_prefix b)
    as Rb.
  unfold bind at 1 3 5 7.
  destruct (submit job_name job_start_time job_end_time stream_prefix a)
    as [o1 a1], (submit job_name job_start_time job_end_time stream_prefix b)
    as [o1' b1].
  cbn [fst snd] in Hout1, H1, Ra, Rb. subst o1'.
  destruct o1 as [handle|e|]; [|done..].
  destruct (sync_same_service self handle fuel a1 b1 H1) as [Hout2 H2].
  { intros i Hi. unfold deadline. rewrite !Ra, !Rb.
    rewrite !Nat.add_0_r, !Nat.add_succ_r. by apply Htests. }
  unfold bind.
  destruct (_get_metrics_results_sync fuel self handle a1) as [o2 a2],
    (_get_metrics_results_sync fuel self handle b1) as [o2' b2].
  cbn [fst snd] in Hout2, H2. subst o2'.
  destruct o2 as [results|e|]; [|done..].
  destruct (parse_log_query_results_const results metric_type statistic)
    as (o & evs & Hparse).
  rewrite !Hparse. cbn [fst snd]. split; [done|]. by apply same_service_emits.
Qed.

(** The one submission of a fetch. *)
Lemma fetch_submission fuel self job_name metric_type statistic
    job_start_time job_end_time stream_prefix (w : World') :
  exists evs,
    trace (snd (get_metrics_for_job fuel self job_name metric_type statistic
                  job_start_time job_end_time stream_prefix w))
    = trace w ++ submit_events job_name job_start_time job_end_time stream_prefix w
      ++ evs
    /\ Forall (fun ev => is_start_query ev = false) evs.
Proof.
  destruct (fetch_events fuel self job_name metric_type statistic
              job_start_time job_end_time stream_prefix w)
    as (evs2 & evs3 & Htr & Hev2 & Hev3 & _).
  exists (evs2 ++ evs3). split; [done|].
  apply Forall_app. split; (eapply Forall_impl; [eassumption|]);
    intros ev Hev; by destruct ev.
Qed.

(** The table of a fetch is what a new parser makes of the lines it was
    given during this fetch. *)
Lemma fetch_table_replay fuel self job_name metric_type statistic
    job_start_time job_end_time stream_prefix (w : World') :
  exists evs,
    trace (snd (get_metrics_for_job fuel self job_name metric_type statistic
                  job_start_time job_end_time stream_prefix w))
    = trace w ++ evs
    /\ forall table,
         fst (get_metrics_for_job fuel self job_name metric_type statistic
                job_start_time job_end_time stream_prefix w) = Return table ->
         table = get_parsed_metrics metric_type statistic (replay evs parser_new).
Proof.
  destruct (fetch_events fuel self job_name metric_type statistic
              job_start_time job_end_time stream_prefix w)
    as (evs2 & evs3 & Htr & Hev2 & Hev3 & Htable).
  eexists. split; [exact Htr|].
  intros table Hout. rewrite !replay_app.
  assert (forall (evs : list event') p,
            Forall (fun ev => is_ingest ev = false) evs -> replay evs p = p) as Hskip.
  { intros evs. induction evs as [|ev evs IH]; intros p Hevs; [done|].
    apply Forall_cons in Hevs as [Hev Hevs].
    destruct ev; try discriminate Hev; exact (IH p Hevs). }
  rewrite (Hskip (submit_events _ _ _ _ _)), (Hskip evs2); [by apply Htable|..].
  - eapply Forall_impl; [exact Hev2|]. intros ev Hev. by destruct ev.
  - unfold submit_events. destruct (truthy_int job_end_time); by repeat constructor.
Qed.
End Fetch.

(** C2: whenever a status check of a fetch finds the query Failed or
    Cancelled, the fetch raises a [MetricsRetrievalError] whose message
    names the handle that was asked for and the status that was seen, and
    that status check is the last thing the fetch does. *)
Theorem failed_or_cancelled_raises_at_once
    {MetricType MetricStatistic MetricsTable : Type}
    {P : LogMetricsParser MetricType MetricStatistic MetricsTable}
    (fuel : nat) (self : CwlInsightsMetricsFetcher) (job_name : string)
    (metric_type : MetricType) (statistic : MetricStatistic)
    (job_start_time job_end_time : option Z) (stream_prefix : option string)
    (w w' : World MetricType MetricStatistic) (out : outcome MetricsTable)
    (pre post : list (event MetricType MetricStatistic))
    (query_id : string) (response : GetQueryResultsResponse) (status : string) :
  get_metrics_for_job fuel self job_name metric_type statistic
                      job_start_time job_end_time stream_prefix w = (out, w') ->
  trace w' = trace w ++ pre ++ EvGetQueryResults query_id response :: post ->
  resp_status response = Some status ->
  status = "Failed" \/ status = "Cancelled" ->
  out = Raise (MetricsRetrievalError
                 ("Query " +:+ query_id +:+ " failed with status "
                           +:+ status +:+ "."))
  /\ post = []
  /\ fst (submit job_name job_start_time job_end_time stream_prefix w)
     = Return query_id.
Proof.
  intros Hrun Htrace Hstatus Hfailed.
  destruct (fetch_fails_at_last _ _ _ _ _ _ _ _ _ _ _ Hrun) as (evs & Htr & Hlast).
  rewrite Htr in Htrace. apply app_inv_head in Htrace.
  destruct (Hlast pre (EvGetQueryResults query_id response) post query_id status Htrace)
    as (-> & -> & Hsub).
  - cbn [failed_poll]. rewrite Hstatus.
    by destruct Hfailed as [-> | ->].
  - done.
Qed.

Lemma failed_or_cancelled_raises_at_once_witness :
  let self := mkFetcher 10 1 in
  let cancelled := mkQueryResults (Some "Cancelled") None in
  let w := example_world sleeping_clock [running] cancelled in
  fst (get_metrics_for_job (P := recording_parser _ _) 5 self "job-1" TIMESTAMP MAX
                           (Some 1000%Z) (Some 2000%Z) None w)
  = Raise (MetricsRetrievalError "Query q-1 failed with status Cancelled.").
Proof.
  intros self cancelled w.
  set (run := get_metrics_for_job (P := recording_parser _ _) 5 self "job-1"
                TIMESTAMP MAX (Some 1000%Z) (Some 2000%Z) None w).
  destruct (failed_or_cancelled_raises_at_once (P := recording_parser _ _)
              5 self "job-1" TIMESTAMP MAX (Some 1000%Z) (Some 2000%Z) None
              w (snd run) (fst run)
              [EvStartQuery (submitted_request "job-1" (Some 1000%Z) (Some 2000%Z)
                                               None 0);
               EvTime 0; EvTime 0; EvGetQueryResults "q-1" running;
               EvSleep 1; EvTime 1]
              [] "q-1" cancelled "Cancelled") as (Hout & _ & _).
  - apply surjective_pairing.
  - vm_compute. reflexivity.
  - reflexivity.
  - by right.
  - exact Hout.
Defined.

(** ** The metric aggregator *)

(** C5: on a well-formed record, looking up an element returns the value
    of the first element of that name, or [None] when there is none, and
    raises nothing; a record without an [@message] element leaves parser
    and world as they were, and the results without that record give the
    same table and the same calls. *)
Theorem extraction_never_raises_and_absent_message_is_skipped
    {MetricType MetricStatistic MetricsTable : Type}
    {P : LogMetricsParser MetricType MetricStatistic MetricsTable}
    (line : LogLine) :
  well_formed_line line ->
  (forall name (w : World MetricType MetricStatistic),
     _get_element_from_log_line name line w = (Return (element_of name line), w))
  /\ (forall name, has_field name line = false -> element_of name line = None)
  /\ (has_field "@message" line = false ->
      (forall p (w : World MetricType MetricStatistic),
         _parse_log_line line p w = (Return p, w))
      /\ (forall before after metric_type statistic
                 (w : World MetricType MetricStatistic),
            _parse_log_query_results (before ++ line :: after) metric_type statistic w
            = _parse_log_query_results (before ++ after) metric_type statistic w)).
Proof.
  intros Hwf. split; [|split].
  - intros name w. by apply get_element_ok.
  - intros name. apply has_field_element_of.
  - intros Hno.
    assert (forall p (w : World MetricType MetricStatistic),
              _parse_log_line line p w = (Return p, w)) as Hskip.
    { intros p w. rewrite parse_log_line_ok by done.
      unfold retained. by rewrite has_field_element_of. }
    split; [exact Hskip|].
    intros before after metric_type statistic w.
    unfold _parse_log_query_results, bind. cbn [LogMetricsParser_new].
    rewrite !for_results_app. unfold bind.
    destruct (for_results before parser_new (emit EvParserNew w)) as [[p| |] w1];
      [|done..].
    cbn [for_results]. unfold bind. by rewrite Hskip.
Qed.

Lemma extraction_never_raises_and_absent_message_is_skipped_witness :
  let line := [result_field "@timestamp" "1200"; result_field "@logStream" "job-1/algo"] in
  let kept := [result_field "@timestamp" "1000";
               result_field "@message" "Metrics - energy=0.1"] in
  let w := example_world sleeping_clock [] running in
  _get_element_from_log_line "@message" line w = (Return None, w)
  /\ _get_element_from_log_line "@timestamp" line w = (Return (Some "1200"), w)
  /\ _parse_log_query_results (P := recording_parser _ _) [kept; line] TIMESTAMP MAX w
     = _parse_log_query_results (P := recording_parser _ _) [kept] TIMESTAMP MAX w.
Proof.
  intros line kept w.
  destruct (extraction_never_raises_and_absent_message_is_skipped
              (P := recording_parser ExampleMetricType ExampleMetricStatistic) line)
    as (Hget & _ & Hskip).
  - repeat constructor; by eexists.
  - destruct (Hskip eq_refl) as [_ Hsame].
    split; [exact (Hget "@message" w)|].
    split; [exact (Hget "@timestamp" w)|].
    exact (Hsame [kept] [] TIMESTAMP MAX w).
Defined.

(** C4, as written, fails on a record whose [@message] element has the
    empty string as its value: the record has the field, and the parser is
    not called for it. *)
Lemma empty_message_is_not_ingested :
  let results := [[result_field "@timestamp" "1000"; result_field "@message" ""]] in
  let w := example_world sleeping_clock [] running in
  Forall well_formed_line results
  /\ _parse_log_query_results (P := recording_parser _ _) results TIMESTAMP MAX w
     = (Return (TIMESTAMP, MAX, []),
        emits [EvParserNew; EvGetParsedMetrics TIMESTAMP MAX] w)
  /\ ~ ingests_once_per_message_field (P := recording_parser _ _)
        results TIMESTAMP MAX w.
Proof.
  intros results w. split; [|split].
  - repeat constructor; by eexists.
  - reflexivity.
  - unfold ingests_once_per_message_field. vm_compute. discriminate.
Qed.

(** C4 (amended): for well-formed records, the aggregator creates one
    parser, calls [parse_log_message] exactly once for each record whose
    first [@message] element has a non-empty value, in the order of the
    records and with the record's first [@timestamp] value, then calls
    [get_parsed_metrics] exactly once, with the caller's metric type and
    statistic, and returns its table. *)
Theorem ingests_each_retained_record_once_in_order
    {MetricType MetricStatistic MetricsTable : Type}
    {P : LogMetricsParser MetricType MetricStatistic MetricsTable}
    (results : list LogLine) (metric_type : MetricType) (statistic : MetricStatistic)
    (w : World MetricType MetricStatistic) :
  Forall well_formed_line results ->
  exists w',
    _parse_log_query_results results metric_type statistic w
    = (Return (get_parsed_metrics metric_type statistic
                 (replay (map ingest_call (List.filter retained results)) parser_new)),
       w')
    /\ trace w' = trace w ++ [EvParserNew]
                  ++ map ingest_call (List.filter retained results)
                  ++ [EvGetParsedMetrics metric_type statistic]
    /\ ingest_calls (map ingest_call (List.filter retained results)
                     : list (event MetricType MetricStatistic))
       = length (List.filter retained results).
Proof.
  intros Hwf. eexists. split; [by apply parse_log_query_results_ok|].
  split; [apply emits_trace|].
  unfold ingest_calls. induction (List.filter retained results) as [|l ls IH]; [done|].
  cbn. by rewrite IH.
Qed.

Lemma ingests_each_retained_record_once_in_order_witness :
  let results :=
    [[result_field "@timestamp" "1000"; result_field "@message" "Metrics - energy=0.1"];
     [result_field "@timestamp" "1200"];
     [result_field "@timestamp" "1300"; result_field "@message" ""];
     [result_field "@message" "Metrics - energy=0.2"; result_field "@timestamp" "1500"]] in
  let w := example_world sleeping_clock [] running in
  fst (_parse_log_query_results (P := recording_parser _ _) results TIMESTAMP MAX w)
  = Return (TIMESTAMP, MAX, [(Some "1000", "Metrics - energy=0.1");
                             (Some "1500", "Metrics - energy=0.2")]).
Proof.
  intros results w.
  destruct (ingests_each_retained_record_once_in_order
              (P := recording_parser _ _) results TIMESTAMP MAX w)
    as (w' & Hrun & _ & _).
  - repeat constructor; by eexists.
  - rewrite Hrun. reflexivity.
Defined.

(** ** The query submitter *)

(** C6: when neither time bound is given, the fetch reads the clock and
    then submits one query whose end time is that reading as an integer
    and whose start time lies [QUERY_DEFAULT_JOB_DURATION], that is 10800
    seconds, before its end time; no other query is submitted. *)
Theorem default_window_is_three_hours
    {MetricType MetricStatistic MetricsTable : Type}
    {P : LogMetricsParser MetricType MetricStatistic MetricsTable}
    (fuel : nat) (self : CwlInsightsMetricsFetcher) (job_name : string)
    (metric_type : MetricType) (statistic : MetricStatistic)
    (stream_prefix : option string) (w : World MetricType MetricStatistic) :
  exists request evs,
    trace (snd (get_metrics_for_job fuel self job_name metric_type statistic
                  None None stream_prefix w))
    = trace w ++ [EvTime (clock w (n_clock w)); EvStartQuery request] ++ evs
    /\ Forall (fun ev => is_start_query ev = false) evs
    /\ endTime request = py_int (clock w (n_clock w))
    /\ (endTime request - startTime request)%Z = QUERY_DEFAULT_JOB_DURATION
    /\ QUERY_DEFAULT_JOB_DURATION = 10800%Z.
Proof.
  destruct (fetch_submission fuel self job_name metric_type statistic
              None None stream_prefix w) as (evs & Htr & Hevs).
  eexists _, evs. split; [exact Htr|]. split; [exact Hevs|].
  cbn [submitted_request endTime startTime effective_end_time
       effective_start_time truthy_int].
  split; [reflexivity|]. split; [lia|reflexivity].
Qed.

(** C7: when no stream prefix is given, the one query that the fetch
    submits filters the log streams by the pattern made of [^], the job
    name and an escaped slash, filters the messages by [Metrics - ], is
    sent to the log group [/aws/braket/jobs] and asks for at most 10000
    records. *)
Theorem omitted_prefix_queries_by_job_name
    {MetricType MetricStatistic MetricsTable : Type}
    {P : LogMetricsParser MetricType MetricStatistic MetricsTable}
    (fuel : nat) (self : CwlInsightsMetricsFetcher) (job_name : string)
    (metric_type : MetricType) (statistic : MetricStatistic)
    (job_start_time job_end_time : option Z)
    (w : World MetricType MetricStatistic) :
  exists pre request evs,
    trace (snd (get_metrics_for_job fuel self job_name metric_type statistic
                  job_start_time job_end_time None w))
    = trace w ++ pre ++ [EvStartQuery request] ++ evs
    /\ Forall (fun ev => is_start_query ev = false) (pre ++ evs)
    /\ queryString request
       = "fields @timestamp, @message | filter @logStream like /^"
         +:+ job_name +:+ "\// | filter @message like /Metrics - /"
    /\ logGroupName request = LOG_GROUP_NAME
    /\ LOG_GROUP_NAME = "/aws/braket/jobs"
    /\ limit request = 10000%Z.
Proof.
  destruct (fetch_submission fuel self job_name metric_type statistic
              job_start_time job_end_time None w) as (evs & Htr & Hevs).
  eexists _, _, evs. split; [rewrite Htr; unfold submit_events; by rewrite <- app_assoc|].
  split; [|done].
  apply Forall_app. split; [|exact Hevs].
  destruct (truthy_int job_end_time); by repeat constructor.
Qed.

(** C9: a start time or an end time of 0 is treated as one that was not
    given: the fetch does what it does without it, so an end time of 0 is
    replaced by the clock reading and a start time of 0 by the effective
    end time minus 10800 seconds. *)
Theorem zero_time_bounds_count_as_unsupplied
    {MetricType MetricStatistic MetricsTable : Type}
    {P : LogMetricsParser MetricType MetricStatistic MetricsTable}
    (fuel : nat) (self : CwlInsightsMetricsFetcher) (job_name : string)
    (metric_type : MetricType) (statistic : MetricStatistic)
    (job_start_time job_end_time : option Z) (stream_prefix : option string)
    (w : World MetricType MetricStatistic) :
  get_metrics_for_job fuel self job_name metric_type statistic
                      job_start_time (Some 0%Z) stream_prefix w
  = get_metrics_for_job fuel self job_name metric_type statistic
                        job_start_time None stream_prefix w
  /\ get_metrics_for_job fuel self job_name metric_type statistic
                         (Some 0%Z) job_end_time stream_prefix w
     = get_metrics_for_job fuel self job_name metric_type statistic
                           None job_end_time stream_prefix w
  /\ (exists request evs,
        trace (snd (get_metrics_for_job fuel self job_name metric_type statistic
                      job_start_time (Some 0%Z) stream_prefix w))
        = trace w ++ [EvTime (clock w (n_clock w)); EvStartQuery request] ++ evs
        /\ Forall (fun ev => is_start_query ev = false) evs
        /\ endTime request = py_int (clock w (n_clock w)))
  /\ (exists pre request evs,
        trace (snd (get_metrics_for_job fuel self job_name metric_type statistic
                      (Some 0%Z) job_end_time stream_prefix w))
        = trace w ++ pre ++ [EvStartQuery request] ++ evs
        /\ Forall (fun ev => is_start_query ev = false) (pre ++ evs)
        /\ endTime request = effective_end_time job_end_time (clock w (n_clock w))
        /\ startTime request = (endTime request - 10800)%Z).
Proof.
  split; [|split; [|split]].
  - by rewrite !get_metrics_for_job_stages.
  - by rewrite !get_metrics_for_job_stages.
  - destruct (fetch_submission fuel self job_name metric_type statistic
                job_start_time (Some 0%Z) stream_prefix w) as (evs & Htr & Hevs).
    eexists _, evs. split; [exact Htr|]. by split.
  - destruct (fetch_submission fuel self job_name metric_type statistic
                (Some 0%Z) job_end_time stream_prefix w) as (evs & Htr & Hevs).
    eexists _, _, evs.
    split; [rewrite Htr; unfold submit_events; by rewrite <- app_assoc|].
    split; [|by split].
    apply Forall_app. split; [|exact Hevs].
    destruct (truthy_int job_end_time); by repeat constructor.
Qed.

(** ** Repeated fetches *)

Lemma ticking_clock_shift (n i : nat) :
  (ticking_clock (n + i) == ticking_clock i + inject_Z (Z.of_nat n))%Q.
Proof.
  unfold ticking_clock. rewrite <- inject_Z_plus. apply inject_Z_injective. lia.
Qed.

(** C8, as written, fails when the clock lets the first fetch poll and
    the second one run out of its budget: the service answers both alike,
    and the tables differ. *)
Lemma identical_fetches_can_differ :
  let self := mkFetcher 10 1 in
  let a := example_world stalling_clock [] complete_with_energy in
  let fetch := get_metrics_for_job (P := recording_parser _ _) 5 self "job-1"
                                   TIMESTAMP MAX None None None in
  let b := snd (fetch a) in
  same_service a b
  /\ fst (fetch a) = Return (TIMESTAMP, MAX, [(Some "1000", "Metrics - energy=0.1")])
  /\ fst (fetch b) = Return (TIMESTAMP, MAX, [])
  /\ fst (fetch b) <> fst (fetch a).
Proof.
  intros self a fetch b. split; [|split; [|split]].
  - split; intros i; [reflexivity|].
    unfold response. cbn. by destruct i.
  - reflexivity.
  - vm_compute. reflexivity.
  - vm_compute. discriminate.
Qed.

(** C8 (amended): a fetch made in a world where the service answers as it
    did for an earlier fetch with the same arguments, and where the loop
    tests against the deadline come out as they did then, has the same
    outcome, so the same table; the service goes on answering alike after
    the two fetches; and the table is the finalisation of a new parser that
    was given only the lines of this fetch, whatever was ingested
    before. *)
Theorem identical_fetches_yield_identical_tables
    {MetricType MetricStatistic MetricsTable : Type}
    {P : LogMetricsParser MetricType MetricStatistic MetricsTable}
    (fuel : nat) (self : CwlInsightsMetricsFetcher) (job_name : string)
    (metric_type : MetricType) (statistic : MetricStatistic)
    (job_start_time job_end_time : option Z) (stream_prefix : option string)
    (a b : World MetricType MetricStatistic) :
  same_service a b ->
  same_loop_tests self fuel job_end_time a b ->
  fst (get_metrics_for_job fuel self job_name metric_type statistic
         job_start_time job_end_time stream_prefix b)
  = fst (get_metrics_for_job fuel self job_name metric_type statistic
           job_start_time job_end_time stream_prefix a)
  /\ same_service
       (snd (get_metrics_for_job fuel self job_name metric_type statistic
               job_start_time job_end_time stream_prefix a))
       (snd (get_metrics_for_job fuel self job_name metric_type statistic
               job_start_time job_end_time stream_prefix b))
  /\ exists evs,
       trace (snd (get_metrics_for_job fuel self job_name metric_type statistic
                     job_start_time job_end_time stream_prefix b))
       = trace b ++ evs
       /\ forall table,
            fst (get_metrics_for_job fuel self job_name metric_type statistic
                   job_start_time job_end_time stream_prefix b) = Return table ->
            table = get_parsed_metrics metric_type statistic (replay evs parser_new).
Proof.
  intros Hsame Htests.
  destruct (fetch_same_service fuel self job_name metric_type statistic
              job_start_time job_end_time stream_prefix a b Hsame Htests)
    as [Hout Hw].
  split; [exact Hout|]. split; [exact Hw|].
  apply fetch_table_replay.
Qed.

Lemma identical_fetches_yield_identical_tables_witness :
  let self := mkFetcher 10 1 in
  let a := example_world ticking_clock [] complete_with_energy in
  let fetch := get_metrics_for_job (P := recording_parser _ _) 5 self "job-1"
                                   TIMESTAMP MAX None None None in
  fst (fetch a) = Return (TIMESTAMP, MAX, [(Some "1000", "Metrics - energy=0.1")])
  /\ fst (fetch (snd (fetch a))) = fst (fetch a).
Proof.
  intros self a fetch. split; [reflexivity|].
  destruct (identical_fetches_yield_identical_tables (P := recording_parser _ _)
              5 self "job-1" TIMESTAMP MAX None None None a (snd (fetch a)))
    as (Hout & _ & _).
  - split; intros i; [reflexivity|].
    unfold response. cbn. by destruct i.
  - intros i Hi.
    do 5 (destruct i as [|i]; [vm_compute; reflexivity|]). lia.
  - exact Hout.
Defined.

(** ** Element lookup on arbitrary records *)

(** The elements in front of the first one named [name]: each has a
    ["field"] key that names something else. *)
Lemma get_element_skips {MetricType MetricStatistic : Type}
    (name : string) (pre rest : LogLine) (w : World MetricType MetricStatistic) :
  Forall (fun element : ResultField =>
            exists field, element !! "field" = Some field /\ field <> name) pre ->
  _get_element_from_log_line name (pre ++ rest) w
  = _get_element_from_log_line name rest w.
Proof.
  induction 1 as [|element pre (field & Hf & Hne) _ IH]; [done|].
  cbn [app _get_element_from_log_line]. unfold bind at 1, getitem at 1.
  rewrite Hf. cbn [ret].
  apply String.eqb_neq in Hne. by rewrite Hne.
Qed.

(** X1: the lookup returns the value of the first element with the
    wanted name and never looks at what follows it, be it another
    element of that name or a dict without the keys. *)
Theorem first_matching_element_decides {MetricType MetricStatistic : Type}
    (name value : string) (pre post : LogLine) (element : ResultField)
    (w : World MetricType MetricStatistic) :
  Forall (fun element : ResultField =>
            exists field, element !! "field" = Some field /\ field <> name) pre ->
  element !! "field" = Some name ->
  element !! "value" = Some value ->
  _get_element_from_log_line name (pre ++ element :: post) w
  = (Return (Some value), w).
Proof.
  intros Hpre Hf Hv. rewrite get_element_skips by done.
  cbn [_get_element_from_log_line]. unfold bind at 1, getitem at 1.
  rewrite Hf. cbn [ret]. rewrite String.eqb_refl.
  unfold bind, getitem. by rewrite Hv.
Qed.

Lemma first_matching_element_decides_witness :
  let w := example_world sleeping_clock [] running in
  _get_element_from_log_line "@message"
    [result_field "@timestamp" "1000"; result_field "@message" "first";
     ∅; result_field "@message" "second"] w
  = (Return (Some "first"), w).
Proof.
  intros w.
  apply (first_matching_element_decides "@message" "first"
           [result_field "@timestamp" "1000"]
           [∅; result_field "@message" "second"]
           (result_field "@message" "first") w).
  - repeat constructor. by exists "@timestamp".
  - reflexivity.
  - reflexivity.
Defined.

(** X2: an element without a ["field"] key that comes before any match
    makes the lookup raise [KeyError] for ["field"], and a first match
    without a ["value"] key makes it raise [KeyError] for ["value"]. *)
Theorem element_without_key_raises {MetricType MetricStatistic : Type}
    (name : string) (pre post : LogLine) (element : ResultField)
    (w : World MetricType MetricStatistic) :
  Forall (fun element : ResultField =>
            exists field, element !! "field" = Some field /\ field <> name) pre ->
  (element !! "field" = None ->
   _get_element_from_log_line name (pre ++ element :: post) w
   = (Raise (KeyError "field"), w))
  /\ (element !! "field" = Some name -> element !! "value" = None ->
      _get_element_from_log_line name (pre ++ element :: post) w
      = (Raise (KeyError "value"), w)).
Proof.
  intros Hpre. split.
  - intros Hf. rewrite get_element_skips by done.
    cbn [_get_element_from_log_line]. unfold bind, getitem. by rewrite Hf.
  - intros Hf Hv. rewrite get_element_skips by done.
    cbn [_get_element_from_log_line]. unfold bind at 1, getitem at 1.
    rewrite Hf. cbn [ret]. rewrite String.eqb_refl.
    unfold bind, getitem. by rewrite Hv.
Qed.

Lemma element_without_key_raises_witness :
  let w := example_world sleeping_clock [] running in
  _get_element_from_log_line "@message"
    [result_field "@timestamp" "1000"; {["value" := "no name"]};
     result_field "@message" "late"] w
  = (Raise (KeyError "field"), w)
  /\ _get_element_from_log_line "@message"
       [result_field "@timestamp" "1000"; {["field" := "@message"]}] w
     = (Raise (KeyError "value"), w).
Proof.
  intros w. split.
  - apply (element_without_key_raises "@message" [result_field "@timestamp" "1000"]
             [result_field "@message" "late"] {["value" := "no name"]} w).
    + repeat constructor. by exists "@timestamp".
    + reflexivity.
  - apply (element_without_key_raises "@message" [result_field "@timestamp" "1000"]
             [] {["field" := "@message"]} w).
    + repeat constructor. by exists "@timestamp".
    + reflexivity.
    + reflexivity.
Defined.

(** ** Further properties of the submission *)

(** X3: when the answer to [start_query] has no ["queryId"] key, the
    fetch raises [KeyError] right after the submission: no status check
    is made and no parser is created. *)
Theorem missing_query_id_aborts_before_polling
    {MetricType MetricStatistic MetricsTable : Type}
    {P : LogMetricsParser MetricType MetricStatistic MetricsTable}
    (fuel : nat) (self : CwlInsightsMetricsFetcher) (job_name : string)
    (metric_type : MetricType) (statistic : MetricStatistic)
    (job_start_time job_end_time : option Z) (stream_prefix : option string)
    (w : World MetricType MetricStatistic) :
  start_query_responses w (n_start_query w) !! "queryId" = None ->
  exists w',
    get_metrics_for_job fuel self job_name metric_type statistic
                        job_start_time job_end_time stream_prefix w
    = (Raise (KeyError "queryId"), w')
    /\ trace w' = trace w ++ submit_events job_name job_start_time job_end_time
                               stream_prefix w
    /\ n_start_query w' = S (n_start_query w)
    /\ n_get_query_results w' = n_get_query_results w.
Proof.
  intros Hno. rewrite get_metrics_for_job_stages. unfold bind at 1.
  pose proof (submit_trace job_name job_start_time job_end_time stream_prefix w) as Htr.
  unfold submit, getitem in *. rewrite Hno in *. cbn [raise snd] in *.
  eexists. split; [reflexivity|]. split; [exact Htr|].
  by destruct (truthy_int job_end_time).
Qed.

Lemma missing_query_id_aborts_before_polling_witness :
  let w := mkWorld ticking_clock 0 (fun _ => {["status" := "Scheduled"]}) 0
                   (fun _ => complete_with_energy) 0 [] in
  exists w',
    get_metrics_for_job (P := recording_parser _ _) 5 (mkFetcher 10 1) "job-1"
                        TIMESTAMP MAX None None None w
    = (Raise (KeyError "queryId"), w')
    /\ n_get_query_results w' = 0.
Proof.
  intros w.
  destruct (missing_query_id_aborts_before_polling (P := recording_parser _ _)
              5 (mkFetcher 10 1) "job-1" TIMESTAMP MAX None None None w)
    as (w' & Hrun & _ & _ & Hn).
  - reflexivity.
  - exists w'. split; [exact Hrun|exact Hn].
Defined.

(** X4: a start time and an end time other than 0 and a stream prefix
    other than the empty string go into the request as they are: the
    clock is not read for the window, the bounds are not compared with
    each other, and the job name does not occur in the request. *)
Theorem explicit_arguments_are_passed_through
    {MetricType MetricStatistic MetricsTable : Type}
    {P : LogMetricsParser MetricType MetricStatistic MetricsTable}
    (fuel : nat) (self : CwlInsightsMetricsFetcher) (job_name : string)
    (metric_type : MetricType) (statistic : MetricStatistic)
    (job_start_time job_end_time : Z) (stream_prefix : string)
    (w : World MetricType MetricStatistic) :
  job_start_time <> 0%Z -> job_end_time <> 0%Z -> stream_prefix <> "" ->
  exists evs,
    trace (snd (get_metrics_for_job fuel self job_name metric_type statistic
                  (Some job_start_time) (Some job_end_time) (Some stream_prefix) w))
    = trace w
      ++ [EvStartQuery (mkStartQuery "/aws/braket/jobs" job_start_time job_end_time
                          ("fields @timestamp, @message | filter @logStream like /^"
                           +:+ stream_prefix
                           +:+ "\// | filter @message like /Metrics - /")
                          10000)]
      ++ evs
    /\ Forall (fun ev => is_start_query ev = false) evs.
Proof.
  intros Hs He Hp.
  destruct (fetch_submission fuel self job_name metric_type statistic
              (Some job_start_time) (Some job_end_time) (Some stream_prefix) w)
    as (evs & Htr & Hevs).
  exists evs. split; [|exact Hevs]. rewrite Htr.
  unfold submit_events, submitted_request, effective_end_time,
    effective_start_time, effective_prefix, truthy_int, truthy_str.
  apply Z.eqb_neq in Hs, He. apply String.eqb_neq in Hp.
  by rewrite Hs, He, Hp.
Qed.

Lemma explicit_arguments_are_passed_through_witness :
  let w := example_world ticking_clock [] complete_with_energy in
  exists evs,
    trace (snd (get_metrics_for_job (P := recording_parser _ _) 5 (mkFetcher 10 1)
                  "job-1" TIMESTAMP MAX (Some 2000%Z) (Some 1000%Z)
                  (Some "other/prefix") w))
    = EvStartQuery (mkStartQuery "/aws/braket/jobs" 2000 1000
                      "fields @timestamp, @message | filter @logStream like /^other/prefix\// | filter @message like /Metrics - /"
                      10000) :: evs.
Proof.
  intros w.
  destruct (explicit_arguments_are_passed_through (P := recording_parser _ _)
              5 (mkFetcher 10 1) "job-1" TIMESTAMP MAX 2000 1000 "other/prefix" w)
    as (evs & Htr & _).
  - lia.
  - lia.
  - discriminate.
  - exists evs. exact Htr.
Defined.

(** X5: an empty string as stream prefix is treated as no prefix: the
    fetch does what it does without one and filters by the job name. *)
Theorem empty_prefix_counts_as_unsupplied
    {MetricType MetricStatistic MetricsTable : Type}
    {P : LogMetricsParser MetricType MetricStatistic MetricsTable}
    (fuel : nat) (self : CwlInsightsMetricsFetcher) (job_name : string)
    (metric_type : MetricType) (statistic : MetricStatistic)
    (job_start_time job_end_time : option Z)
    (w : World MetricType MetricStatistic) :
  get_metrics_for_job fuel self job_name metric_type statistic
                      job_start_time job_end_time (Some "") w
  = get_metrics_for_job fuel self job_name metric_type statistic
                        job_start_time job_end_time None w
  /\ exists pre request evs,
       trace (snd (get_metrics_for_job fuel self job_name metric_type statistic
                     job_start_time job_end_time (Some "") w))
       = trace w ++ pre ++ [EvStartQuery request] ++ evs
       /\ Forall (fun ev => is_start_query ev = false) (pre ++ evs)
       /\ queryString request = query_string job_name.
Proof.
  split; [by rewrite !get_metrics_for_job_stages|].
  destruct (fetch_submission fuel self job_name metric_type statistic
              job_start_time job_end_time (Some "") w) as (evs & Htr & Hevs).
  eexists _, _, evs.
  split; [rewrite Htr; unfold submit_events; by rewrite <- app_assoc|].
  split; [|done].
  apply Forall_app. split; [|exact Hevs].
  destruct (truthy_int job_end_time); by repeat constructor.
Qed.

(** X6: with only an end time other than 0, the window starts 10800
    seconds before it and the clock is not read for it; with only a
    start time other than 0, the window runs from that start to the clock
    reading, wherever the start lies. *)
Theorem one_sided_windows
    {MetricType MetricStatistic MetricsTable : Type}
    {P : LogMetricsParser MetricType MetricStatistic MetricsTable}
    (fuel : nat) (self : CwlInsightsMetricsFetcher) (job_name : string)
    (metric_type : MetricType) (statistic : MetricStatistic)
    (bound : Z) (stream_prefix : option string)
    (w : World MetricType MetricStatistic) :
  bound <> 0%Z ->
  (exists request evs,
     trace (snd (get_metrics_for_job fuel self job_name metric_type statistic
                   None (Some bound) stream_prefix w))
     = trace w ++ [EvStartQuery request] ++ evs
     /\ Forall (fun ev => is_start_query ev = false) evs
     /\ endTime request = bound
     /\ startTime request = (bound - 10800)%Z)
  /\ (exists request evs,
        trace (snd (get_metrics_for_job fuel self job_name metric_type statistic
                      (Some bound) None stream_prefix w))
        = trace w ++ [EvTime (clock w (n_clock w)); EvStartQuery request] ++ evs
        /\ Forall (fun ev => is_start_query ev = false) evs
        /\ endTime request = py_int (clock w (n_clock w))
        /\ startTime request = bound).
Proof.
  intros Hb. apply Z.eqb_neq in Hb. split.
  - destruct (fetch_submission fuel self job_name metric_type statistic
                None (Some bound) stream_prefix w) as (evs & Htr & Hevs).
    eexists _, evs. rewrite Htr.
    unfold submit_events, submitted_request, effective_end_time,
      effective_start_time, truthy_int. rewrite Hb. cbn [negb app default].
    by repeat split.
  - destruct (fetch_submission fuel self job_name metric_type statistic
                (Some bound) None stream_prefix w) as (evs & Htr & Hevs).
    eexists _, evs. rewrite Htr.
    unfold submit_events, submitted_request, effective_end_time,
      effective_start_time, truthy_int. rewrite Hb. cbn [negb app default].
    by repeat split.
Qed.

Lemma one_sided_windows_witness :
  let w := example_world ticking_clock [] complete_with_energy in
  exists request evs,
    trace (snd (get_metrics_for_job (P := recording_parser _ _) 5 (mkFetcher 10 1)
                  "job-1" TIMESTAMP MAX None (Some 20000%Z) None w))
    = [EvStartQuery request] ++ evs
    /\ startTime request = 9200%Z.
Proof.
  intros w.
  destruct (one_sided_windows (P := recording_parser _ _) 5 (mkFetcher 10 1)
              "job-1" TIMESTAMP MAX 20000 None w) as [(request & evs & Htr & _ & _ & Hs) _].
  - lia.
  - exists request, evs. split; [exact Htr|exact Hs].
Defined.

(** ** Further properties of the poller *)



(** The events of the loop: its status checks ask for the handle it was
    given, it logs no warning, and an exception comes from its last status
    check. *)
Lemma poll_loop_run {MetricType MetricStatistic : Type}
    (self : CwlInsightsMetricsFetcher) (query_id : string) (fuel : nat)
    (timeout_time : Q) (w : World MetricType MetricStatistic) :
  exists evs,
    trace (snd (poll_loop fuel self query_id timeout_time w)) = trace w ++ evs
    /\ Forall (fun ev => asks_for query_id ev = true /\ is_warning ev = false) evs
    /\ forall e,
         fst (poll_loop fuel self query_id timeout_time w) = Raise e ->
         exists pre r,
           evs = pre ++ [EvGetQueryResults query_id r]
           /\ poll_error self query_id r e.
Proof.
  revert w. induction fuel as [|fuel IH]; intros w.
  { exists []. rewrite app_nil_r. split; [done|]. split; [constructor|].
    intros e He. discriminate He. }
  rewrite poll_loop_S. unfold poll_iteration.
  set (now := clock w (n_clock w)).
  set (r := get_query_results_responses w (n_get_query_results w)).
  assert (Forall (fun ev : event MetricType MetricStatistic =>
                    asks_for query_id ev = true /\ is_warning ev = false)
                 [EvTime now; EvGetQueryResults query_id r]) as Hall2.
  { repeat constructor. cbn. apply String.eqb_refl. }
  destruct (Qlt_bool now timeout_time).
  2:{ exists [EvTime now]. split; [done|]. split; [by repeat constructor|].
      intros e He. discriminate He. }
  destruct (resp_status r) as [status|] eqn:Hst.
  2:{ exists [EvTime now; EvGetQueryResults query_id r].
      split; [cbn; by rewrite <- app_assoc|]. split; [exact Hall2|].
      intros e [= <-]. exists [EvTime now], r. split; [done|].
      unfold poll_error. by rewrite Hst. }
  destruct (failed_status status) eqn:Hfail.
  { exists [EvTime now; EvGetQueryResults query_id r].
    split; [cbn; by rewrite <- app_assoc|]. split; [exact Hall2|].
    intros e [= <-]. exists [EvTime now], r. split; [done|].
    unfold poll_error. by rewrite Hst, Hfail. }
  destruct (String.eqb status "Complete") eqn:Hc.
  { exists [EvTime now; EvGetQueryResults query_id r].
    split; [destruct (resp_results r); cbn; by rewrite <- app_assoc|].
    split; [exact Hall2|].
    intros e He. exists [EvTime now], r. split; [done|].
    unfold poll_error. rewrite Hst, Hfail, Hc.
    destruct (resp_results r); [discriminate He|]. by injection He as <-. }
  destruct (Qlt_bool (_poll_interval_seconds self) 0) eqn:Hneg.
  { exists [EvTime now; EvGetQueryResults query_id r].
    split; [cbn; by rewrite <- app_assoc|]. split; [exact Hall2|].
    intros e [= <-]. exists [EvTime now], r. split; [done|].
    unfold poll_error. rewrite Hst, Hfail, Hc.
    by apply Qlt_bool_true in Hneg. }
  match goal with |- context [poll_loop fuel self query_id timeout_time ?w3] =>
    destruct (IH w3) as (evs & Htr & Hall & Hraise) end.
  exists ([EvTime now; EvGetQueryResults query_id r;
           EvSleep (_poll_interval_seconds self)] ++ evs).
  split; [|split].
  - rewrite Htr. cbn [trace emit tick_clock tick_get_query_results].
    by rewrite <- !app_assoc.
  - apply Forall_app. split; [|exact Hall].
    apply (Forall_app _ [_; _] [_]). split; [exact Hall2|by repeat constructor].
  - intros e He. destruct (Hraise e He) as (pre & r' & -> & Herr).
    exists ([EvTime now; EvGetQueryResults query_id r;
             EvSleep (_poll_interval_seconds self)] ++ pre), r'.
    split; [by rewrite <- app_assoc|exact Herr].
Qed.

(** The same for the whole poller: a warning is its last event and comes
    with the empty list. *)
Lemma sync_run {MetricType MetricStatistic : Type}
    (self : CwlInsightsMetricsFetcher) (query_id : string) (fuel : nat)
    (w : World MetricType MetricStatistic) :
  exists evs,
    trace (snd (_get_metrics_results_sync fuel self query_id w)) = trace w ++ evs
    /\ Forall (fun ev => asks_for query_id ev = true) evs
    /\ (forall e,
          fst (_get_metrics_results_sync fuel self query_id w) = Raise e ->
          exists pre r,
            evs = pre ++ [EvGetQueryResults query_id r]
            /\ poll_error self query_id r e)
    /\ (forall pre msg post,
          evs = pre ++ EvWarning msg :: post ->
          post = []
          /\ msg = "Timed out waiting for query " +:+ query_id +:+ "."
          /\ fst (_get_metrics_results_sync fuel self query_id w) = Return []).
Proof.
  rewrite sync_unfold.
  set (w1 := emit (EvTime (clock w (n_clock w))) (tick_clock w)).
  destruct (poll_loop_run self query_id fuel
              (float_add (clock w (n_clock w)) (_poll_timeout_seconds self)) w1)
    as (evs & Htr & Hall & Hraise).
  assert (forall pre msg post,
            EvTime (clock w (n_clock w)) :: evs = pre ++ EvWarning msg :: post ->
            False) as Hnowarn.
  { intros pre msg post Heq.
    assert (Forall (fun ev : event MetricType MetricStatistic => is_warning ev = false)
                   (EvTime (clock w (n_clock w)) :: evs)) as Hno.
    { constructor; [done|]. eapply Forall_impl; [exact Hall|]. by intros ev [_ ?]. }
    rewrite Heq in Hno. apply Forall_app in Hno as [_ Hno].
    apply Forall_cons in Hno as [Hno _]. discriminate Hno. }
  assert (Forall (fun ev : event MetricType MetricStatistic =>
                    asks_for query_id ev = true)
                 (EvTime (clock w (n_clock w)) :: evs)) as Hask.
  { constructor; [done|]. eapply Forall_impl; [exact Hall|]. by intros ev [? _]. }
  assert (trace w1 ++ evs = trace w ++ EvTime (clock w (n_clock w)) :: evs) as Htr1.
  { subst w1. cbn. by rewrite <- app_assoc. }
  destruct (poll_loop fuel self query_id _ w1) as [[[results|]|e|] w2];
    cbn [fst snd] in *.
  - exists (EvTime (clock w (n_clock w)) :: evs).
    split; [by rewrite Htr|]. split; [exact Hask|].
    split; [intros e He; discriminate He|].
    intros pre msg post Heq. destruct (Hnowarn _ _ _ Heq).
  - exists ((EvTime (clock w (n_clock w)) :: evs)
            ++ [EvWarning ("Timed out waiting for query " +:+ query_id +:+ ".")]).
    split; [cbn [trace emit]; rewrite Htr, Htr1; by rewrite <- app_assoc|].
    split; [apply Forall_app; split; [exact Hask|by repeat constructor]|].
    split; [intros e He; discriminate He|].
    intros pre msg post Heq.
    destruct post as [|ev post _] using rev_ind.
    + apply (app_inj_tail _ pre) in Heq as [_ [= <-]]. done.
    + rewrite app_comm_cons, app_assoc in Heq.
      apply app_inj_tail in Heq as [Heq _]. destruct (Hnowarn _ _ _ Heq).
  - exists (EvTime (clock w (n_clock w)) :: evs).
    split; [by rewrite Htr|]. split; [exact Hask|].
    split.
    + intros e' [= <-]. destruct (Hraise e eq_refl) as (pre & r & -> & Herr).
      by exists (EvTime (clock w (n_clock w)) :: pre), r.
    + intros pre msg post Heq. destruct (Hnowarn _ _ _ Heq).
  - exists (EvTime (clock w (n_clock w)) :: evs).
    split; [by rewrite Htr|]. split; [exact Hask|].
    split; [intros e He; discriminate He|].
    intros pre msg post Heq. destruct (Hnowarn _ _ _ Heq).
Qed.

(** ** Exceptions of the parsing stage *)

Lemma get_element_raises {MetricType MetricStatistic : Type}
    (name : string) (line : LogLine) (w w' : World MetricType MetricStatistic)
    (e : exn) :
  _get_element_from_log_line name line w = (Raise e, w') ->
  e = KeyError "field" \/ e = KeyError "value".
Proof.
  induction line as [|element line IH]; [discriminate|].
  cbn [_get_element_from_log_line]. unfold bind at 1, getitem at 1.
  destruct (element !! "field") as [field|]; [|intros [= <- _]; by left].
  cbn [ret]. destruct (String.eqb field name); [|exact IH].
  unfold bind, getitem.
  destruct (element !! "value"); [discriminate|intros [= <- _]; by right].
Qed.

Lemma parse_log_line_raises
    {MetricType MetricStatistic MetricsTable : Type}
    {P : LogMetricsParser MetricType MetricStatistic MetricsTable}
    (line : LogLine) (p : parser) (w w' : World MetricType MetricStatistic)
    (e : exn) :
  _parse_log_line line p w = (Raise e, w') ->
  e = KeyError "field" \/ e = KeyError "value".
Proof.
  unfold _parse_log_line. unfold bind at 1.
  destruct (_get_element_from_log_line "@message" line w)
    as [[message|e1|] w1] eqn:H1; [|intros [= <- _]|discriminate].
  2:{ exact (get_element_raises _ _ _ _ _ H1). }
  destruct (truthy_str message); [|discriminate].
  unfold bind at 1.
  destruct (_get_element_from_log_line "@timestamp" line w1)
    as [[timestamp|e2|] w2] eqn:H2; [|intros [= <- _]|discriminate].
  2:{ exact (get_element_raises _ _ _ _ _ H2). }
  destruct message; discriminate.
Qed.

Lemma for_results_raises
    {MetricType MetricStatistic MetricsTable : Type}
    {P : LogMetricsParser MetricType MetricStatistic MetricsTable}
    (results : list LogLine) (p : parser) (w w' : World MetricType MetricStatistic)
    (e : exn) :
  for_results results p w = (Raise e, w') ->
  e = KeyError "field" \/ e = KeyError "value".
Proof.
  revert p w. induction results as [|line results IH]; intros p w; [discriminate|].
  cbn [for_results]. unfold bind at 1.
  destruct (_parse_log_line line p w) as [[p1|e1|] w1] eqn:H1;
    [apply IH|intros [= <- _]|discriminate].
  exact (parse_log_line_raises _ _ _ _ _ H1).
Qed.

Lemma parse_log_query_results_raises
    {MetricType MetricStatistic MetricsTable : Type}
    {P : LogMetricsParser MetricType MetricStatistic MetricsTable}
    (results : list LogLine) (metric_type : MetricType) (statistic : MetricStatistic)
    (w w' : World MetricType MetricStatistic) (e : exn) :
  _parse_log_query_results results metric_type statistic w = (Raise e, w') ->
  e = KeyError "field" \/ e = KeyError "value".
Proof.
  unfold _parse_log_query_results. unfold bind at 1. cbn [LogMetricsParser_new].
  unfold bind at 1.
  destruct (for_results results parser_new (emit EvParserNew w))
    as [[p1|e1|] w1] eqn:H1; [discriminate|intros [= <- _]|discriminate].
  exact (for_results_raises _ _ _ _ _ H1).
Qed.

(** ** A fetch, stage by stage *)

(** What a fetch leaves in the trace after its submission: the events of
    the poller, all for the handle that the submission returned, then
    the events of the parser; and where its exceptions come from. *)
Lemma fetch_run
    {MetricType MetricStatistic MetricsTable : Type}
    {P : LogMetricsParser MetricType MetricStatistic MetricsTable}
    (fuel : nat) (self : CwlInsightsMetricsFetcher) (job_name : string)
    (metric_type : MetricType) (statistic : MetricStatistic)
    (job_start_time job_end_time : option Z) (stream_prefix : option string)
    (w : World MetricType MetricStatistic) :
  let run := get_metrics_for_job fuel self job_name metric_type statistic
                                 job_start_time job_end_time stream_prefix w in
  exists evs2 evs3,
    trace (snd run)
    = trace w ++ submit_events job_name job_start_time job_end_time stream_prefix w
      ++ evs2 ++ evs3
    /\ Forall (fun ev => parser_event ev = true) evs3
    /\ match start_query_responses w (n_start_query w) !! "queryId" with
       | None => evs2 = [] /\ evs3 = [] /\ fst run = Raise (KeyError "queryId")
       | Some handle =>
           Forall (fun ev => asks_for handle ev = true) evs2
           /\ (forall pre msg post,
                 evs2 = pre ++ EvWarning msg :: post ->
                 post = []
                 /\ msg = "Timed out waiting for query " +:+ handle +:+ "."
                 /\ evs3 = [EvParserNew; EvGetParsedMetrics metric_type statistic]
                 /\ fst run = Return (get_parsed_metrics metric_type statistic
                                        parser_new))
           /\ (forall e,
                 fst run = Raise e ->
                 (exists pre r,
                    evs2 = pre ++ [EvGetQueryResults handle r]
                    /\ poll_error self handle r e /\ evs3 = [])
                 \/ e = KeyError "field" \/ e = KeyError "value")
       end.
Proof.
  intros run. subst run. rewrite get_metrics_for_job_stages. unfold bind.
  pose proof (submit_trace job_name job_start_time job_end_time stream_prefix w) as Htr1.
  set (evs1 := submit_events _ _ _ _ _) in *. clearbody evs1.
  unfold submit, getitem in *.
  destruct (start_query_responses w (n_start_query w) !! "queryId") as [handle|].
  2:{ exists [], []. rewrite !app_nil_r. cbn [raise snd fst] in *.
      split; [exact Htr1|]. split; [constructor|done]. }
  cbn [ret fst snd] in *.
  set (w1 := emit (EvStartQuery _) _) in *. clearbody w1.
  destruct (sync_run self handle fuel w1) as (evs2 & Htr2 & Hask & Hraise & Hwarn).
  destruct (_get_metrics_results_sync fuel self handle w1)
    as [[results|e0|] w2] eqn:Hsync; cbn [fst snd] in *.
  - destruct (_parse_log_query_results results metric_type statistic w2)
      as [o w3] eqn:Hparse.
    destruct (parse_log_query_results_events _ _ _ _ _ _ Hparse)
      as (evs3 & Htr3 & Hev3 & _).
    exists evs2, evs3. cbn [fst snd].
    split; [by rewrite Htr3, Htr2, Htr1, <- !app_assoc|]. split; [exact Hev3|].
    split; [exact Hask|]. split.
    + intros pre msg post Heq.
      destruct (Hwarn pre msg post Heq) as (-> & -> & [= ->]).
      cbn in Hparse. injection Hparse as <- <-.
      cbn [trace emit] in Htr3. rewrite <- app_assoc in Htr3.
      apply app_inv_head in Htr3. by subst evs3.
    + intros e He. subst o. right.
      exact (parse_log_query_results_raises _ _ _ _ _ _ Hparse).
  - exists evs2, []. rewrite app_nil_r.
    split; [by rewrite Htr2, Htr1, <- app_assoc|]. split; [constructor|].
    split; [exact Hask|]. split.
    + intros pre msg post Heq. destruct (Hwarn _ _ _ Heq) as (_ & _ & Hc).
      discriminate Hc.
    + intros e [= <-]. left. destruct (Hraise e0 eq_refl) as (pre & r & -> & Herr).
      by exists pre, r.
  - exists evs2, []. rewrite app_nil_r.
    split; [by rewrite Htr2, Htr1, <- app_assoc|]. split; [constructor|].
    split; [exact Hask|]. split.
    + intros pre msg post Heq. destruct (Hwarn _ _ _ Heq) as (_ & _ & Hc).
      discriminate Hc.
    + intros e He. discriminate He.
Qed.

(** ** Further properties of the poller and of the fetch *)







(** X11: a fetch raises [MetricsRetrievalError] only when its last event
    is a status check that found the query Failed or Cancelled; the
    message then names the handle asked for and that status. *)
Theorem retrieval_error_needs_failed_check
    {MetricType MetricStatistic MetricsTable : Type}
    {P : LogMetricsParser MetricType MetricStatistic MetricsTable}
    (fuel : nat) (self : CwlInsightsMetricsFetcher) (job_name : string)
    (metric_type : MetricType) (statistic : MetricStatistic)
    (job_start_time job_end_time : option Z) (stream_prefix : option string)
    (w w' : World MetricType MetricStatistic) (msg : string) :
  get_metrics_for_job fuel self job_name metric_type statistic
                      job_start_time job_end_time stream_prefix w
  = (Raise (MetricsRetrievalError msg), w') ->
  exists handle pre r status,
    trace w' = trace w ++ pre ++ [EvGetQueryResults handle r]
    /\ resp_status r = Some status
    /\ (status = "Failed" \/ status = "Cancelled")
    /\ msg = "Query " +:+ handle +:+ " failed with status " +:+ status +:+ ".".
Proof.
  intros Hrun.
  destruct (fetch_run fuel self job_name metric_type statistic
              job_start_time job_end_time stream_prefix w)
    as (evs2 & evs3 & Htr & _ & Hcases).
  rewrite Hrun in Htr, Hcases. cbn [fst snd] in Htr, Hcases.
  destruct (start_query_responses w (n_start_query w) !! "queryId") as [handle|];
    [|by destruct Hcases as (_ & _ & ?)].
  destruct Hcases as (_ & _ & Hraise).
  destruct (Hraise _ eq_refl) as [(pre & r & -> & Herr & ->)|[?|?]]; [|done..].
  unfold poll_error in Herr.
  destruct (resp_status r) as [status|] eqn:Hst; [|done].
  destruct (failed_status status) eqn:Hfail.
  2:{ destruct (String.eqb status "Complete"); by destruct Herr. }
  injection Herr as ->.
  eexists handle, _, r, status. split; [|split; [done|split; [|done]]].
  - rewrite Htr, app_nil_r. by rewrite (app_assoc (submit_events _ _ _ _ _)).
  - unfold failed_status in Hfail.
    apply orb_true_iff in Hfail as [H|H]; apply String.eqb_eq in H;
      [by left|by right].
Qed.

Lemma retrieval_error_needs_failed_check_witness :
  let self := mkFetcher 10 1 in
  let w := example_world sleeping_clock [] (mkQueryResults (Some "Cancelled") None) in
  exists handle pre r status,
    trace (snd (get_metrics_for_job (P := recording_parser _ _) 5 self "job-1"
                  TIMESTAMP MAX None None None w))
    = trace w ++ pre ++ [EvGetQueryResults handle r]
    /\ resp_status r = Some status
    /\ (status = "Failed" \/ status = "Cancelled")
    /\ "Query q-1 failed with status Cancelled."
       = "Query " +:+ handle +:+ " failed with status " +:+ status +:+ ".".
Proof.
  intros self w.
  apply (retrieval_error_needs_failed_check (P := recording_parser _ _) 5 self
           "job-1" TIMESTAMP MAX None None None w).
  reflexivity.
Defined.

(** X12: every status check of a fetch asks for the handle that the
    answer to its [start_query] carried; when that answer has no handle,
    the fetch makes no status check. *)
Theorem status_checks_ask_for_the_returned_handle
    {MetricType MetricStatistic MetricsTable : Type}
    {P : LogMetricsParser MetricType MetricStatistic MetricsTable}
    (fuel : nat) (self : CwlInsightsMetricsFetcher) (job_name : string)
    (metric_type : MetricType) (statistic : MetricStatistic)
    (job_start_time job_end_time : option Z) (stream_prefix : option string)
    (w : World MetricType MetricStatistic) :
  exists evs,
    trace (snd (get_metrics_for_job fuel self job_name metric_type statistic
                  job_start_time job_end_time stream_prefix w))
    = trace w ++ evs
    /\ match start_query_responses w (n_start_query w) !! "queryId" with
       | Some handle => Forall (fun ev => asks_for handle ev = true) evs
       | None => Forall (fun ev => is_status_check ev = false) evs
       end.
Proof.
  destruct (fetch_run fuel self job_name metric_type statistic
              job_start_time job_end_time stream_prefix w)
    as (evs2 & evs3 & Htr & Hev3 & Hcases).
  eexists. split; [exact Htr|].
  assert (forall handle,
            Forall (fun ev : event MetricType MetricStatistic =>
                      asks_for handle ev = true /\ is_status_check ev = false)
                   (submit_events job_name job_start_time job_end_time
                                  stream_prefix w)) as Hsub.
  { intros handle. unfold submit_events.
    destruct (truthy_int job_end_time); by repeat constructor. }
  assert (forall handle,
            Forall (fun ev : event MetricType MetricStatistic =>
                      asks_for handle ev = true /\ is_status_check ev = false)
                   evs3) as Hpar.
  { intros handle. eapply Forall_impl; [exact Hev3|]. intros ev Hev.
    by destruct ev. }
  destruct (start_query_responses w (n_start_query w) !! "queryId") as [handle|].
  - destruct Hcases as (Hask & _).
    apply Forall_app. split.
    { eapply Forall_impl; [exact (Hsub handle)|]. by intros ev [? _]. }
    apply Forall_app. split; [exact Hask|].
    eapply Forall_impl; [exact (Hpar handle)|]. by intros ev [? _].
  - destruct Hcases as (-> & -> & _). rewrite !app_nil_r.
    eapply Forall_impl; [exact (Hsub "")|]. by intros ev [_ ?].
Qed.

(** X13: a warning among the events of a fetch is the time-out warning
    for the handle that the submission returned, and the fetch then
    returns what a new parser that was given nothing makes. *)
Theorem warning_means_empty_ingestion
    {MetricType MetricStatistic MetricsTable : Type}
    {P : LogMetricsParser MetricType MetricStatistic MetricsTable}
    (fuel : nat) (self : CwlInsightsMetricsFetcher) (job_name : string)
    (metric_type : MetricType) (statistic : MetricStatistic)
    (job_start_time job_end_time : option Z) (stream_prefix : option string)
    (w : World MetricType MetricStatistic) :
  exists evs,
    trace (snd (get_metrics_for_job fuel self job_name metric_type statistic
                  job_start_time job_end_time stream_prefix w))
    = trace w ++ evs
    /\ forall msg,
         EvWarning msg ∈ evs ->
         fst (get_metrics_for_job fuel self job_name metric_type statistic
                job_start_time job_end_time stream_prefix w)
         = Return (get_parsed_metrics metric_type statistic parser_new)
         /\ exists handle,
              start_query_responses w (n_start_query w) !! "queryId" = Some handle
              /\ msg = "Timed out waiting for query " +:+ handle +:+ ".".
Proof.
  destruct (fetch_run fuel self job_name metric_type statistic
              job_start_time job_end_time stream_prefix w)
    as (evs2 & evs3 & Htr & Hev3 & Hcases).
  eexists. split; [exact Htr|].
  intros msg Hin.
  apply elem_of_app in Hin as [Hin|Hin].
  { exfalso. unfold submit_events in Hin.
    destruct (truthy_int job_end_time); cbn in Hin;
      repeat (apply elem_of_cons in Hin as [Hin|Hin]; [discriminate Hin|]);
      by apply elem_of_nil in Hin. }
  apply elem_of_app in Hin as [Hin|Hin].
  2:{ exfalso. rewrite Forall_forall in Hev3. specialize (Hev3 _ Hin).
      discriminate Hev3. }
  destruct (start_query_responses w (n_start_query w) !! "queryId") as [handle|].
  - destruct Hcases as (_ & Hwarn & _).
    apply list_elem_of_split in Hin as (pre & post & Heq).
    destruct (Hwarn pre msg post Heq) as (_ & -> & _ & Hout).
    split; [exact Hout|]. by exists handle.
  - destruct Hcases as (-> & _). by apply elem_of_nil in Hin.
Qed.

(** ** How many status checks a call can make *)

(** Status check number [k] of the loop follows a loop test that found
    reading number [k - 1] below the deadline. *)
Lemma poll_loop_check_bound {MetricType MetricStatistic : Type}
    (self : CwlInsightsMetricsFetcher) (query_id : string) (fuel : nat)
    (timeout_time : Q) (w : World MetricType MetricStatistic) :
  exists k,
    n_get_query_results (snd (poll_loop fuel self query_id timeout_time w))
    = n_get_query_results w + k
    /\ forall j, k = S j -> j < fuel /\ (reading w j < timeout_time)%Q.
Proof.
  revert w. induction fuel as [|fuel IH]; intros w.
  { exists 0. split; [cbn; lia|]. intros j Hj. discriminate Hj. }
  rewrite poll_loop_S. unfold poll_iteration.
  assert (clock w (n_clock w) = reading w 0) as Hnow
    by (unfold reading; by rewrite Nat.add_0_r).
  destruct (Qlt_bool (clock w (n_clock w)) timeout_time) eqn:Hlt.
  2:{ exists 0. split; [cbn; lia|]. intros j Hj. discriminate Hj. }
  apply Qlt_bool_true in Hlt. rewrite Hnow in Hlt.
  assert (forall j, 1 = S j -> j < S fuel /\ (reading w j < timeout_time)%Q) as Hone.
  { intros j [= <-]. split; [lia|exact Hlt]. }
  destruct (resp_status _) as [status|]; [|exists 1; split; [cbn; lia|exact Hone]].
  destruct (failed_status status); [exists 1; split; [cbn; lia|exact Hone]|].
  destruct (String.eqb status "Complete").
  { exists 1. split; [destruct (resp_results _); cbn; lia|exact Hone]. }
  destruct (Qlt_bool _ 0); [exists 1; split; [cbn; lia|exact Hone]|].
  match goal with |- context [poll_loop fuel self query_id timeout_time ?next] =>
    set (w3 := next) end.
  assert (forall i, reading w3 i = reading w (S i)) as Hshift.
  { intros i. unfold reading. subst w3. cbn. by rewrite Nat.add_succ_r. }
  destruct (IH w3) as (k & Hk & Hbound).
  exists (S k). split.
  { rewrite Hk. subst w3. cbn. lia. }
  intros j [= <-]. destruct k as [|k]; [exact (Hone 0 eq_refl)|].
  destruct (Hbound k eq_refl) as [Hfuel Hread]. rewrite Hshift in Hread.
  split; [lia|exact Hread].
Qed.

(** Readings that are at least [x] apart add up. *)
Lemma spaced_readings {MetricType MetricStatistic : Type}
    (w : World MetricType MetricStatistic) (x : Q) (j : nat) :
  (forall i, i < j -> (reading w (S i) + x <= reading w (S (S i)))%Q) ->
  (reading w 1 + inject_Z (Z.of_nat j) * x <= reading w (S j))%Q.
Proof.
  induction j as [|j IH]; intros Hclock.
  { change (inject_Z (Z.of_nat 0)) with 0%Q. lra. }
  pose proof (Hclock j ltac:(lia)) as Hstep.
  assert (reading w 1 + inject_Z (Z.of_nat j) * x <= reading w (S j))%Q as Hj
    by (apply IH; intros i Hi; apply Hclock; lia).
  rewrite Nat2Z.inj_succ. unfold Z.succ. rewrite inject_Z_plus.
  change (inject_Z 1) with 1%Q.
  assert ((inject_Z (Z.of_nat j) + 1) * x == inject_Z (Z.of_nat j) * x + x)%Q as E
    by ring.
  rewrite E. lra.
Qed.

(** X14: on a clock whose readings are floats, where every loop test
    comes at least one interval after the test before it, and which does
    not run backwards between the computation of the deadline and the
    first test, a call that makes [k] status checks has [k - 1] intervals
    fit into the timeout; with the default 1 s and 10 s that is at most
    10 checks. *)
Theorem status_checks_are_bounded {MetricType MetricStatistic : Type}
    (self : CwlInsightsMetricsFetcher) (query_id : string) (fuel : nat)
    (w : World MetricType MetricStatistic) :
  (forall i, i < fuel -> is_float (reading w (S i))) ->
  (forall i, S i < fuel ->
     (reading w (S i) + _poll_interval_seconds self <= reading w (S (S i)))%Q) ->
  (reading w 0 <= reading w 1)%Q ->
  exists k,
    n_get_query_results (snd (_get_metrics_results_sync fuel self query_id w))
    = n_get_query_results w + k
    /\ forall j, k = S j ->
         (inject_Z (Z.of_nat j) * _poll_interval_seconds self
          < _poll_timeout_seconds self)%Q.
Proof.
  intros Hfloat Hclock Hfirst. rewrite sync_unfold.
  set (w1 := emit (EvTime (clock w (n_clock w))) (tick_clock w)).
  assert (forall i, reading w1 i = reading w (S i)) as Hshift.
  { intros i. unfold reading. subst w1. cbn. by rewrite Nat.add_succ_r. }
  destruct (poll_loop_check_bound self query_id fuel
              (float_add (clock w (n_clock w)) (_poll_timeout_seconds self)) w1)
    as (k & Hk & Hbound).
  exists k. split.
  - destruct (poll_loop fuel self query_id _ w1) as [[[results|]|e|] w2];
      cbn [snd n_get_query_results emit] in *; by rewrite Hk.
  - intros j Hj. destruct (Hbound j Hj) as [Hfuel Hread].
    rewrite Hshift in Hread.
    assert (clock w (n_clock w) = reading w 0) as Hnow
      by (unfold reading; by rewrite Nat.add_0_r).
    rewrite Hnow in Hread.
    apply (float_below_rounded _ _ (Hfloat j Hfuel)) in Hread.
    pose proof (spaced_readings w (_poll_interval_seconds self) j) as Hsum.
    assert (reading w 1 + inject_Z (Z.of_nat j) * _poll_interval_seconds self
            <= reading w (S j))%Q as Hj' by (apply Hsum; intros i Hi; apply Hclock; lia).
    lra.
Qed.

Lemma status_checks_are_bounded_witness :
  let self := mkFetcher 10 1 in
  let w := example_world ticking_clock [] running in
  exists k,
    n_get_query_results (snd (_get_metrics_results_sync 12 self "q-1" w)) = k
    /\ forall j, k = S j -> (inject_Z (Z.of_nat j) * 1 < 10)%Q.
Proof.
  intros self w.
  destruct (status_checks_are_bounded self "q-1" 12 w) as (k & Hk & Hbound).
  - intros i Hi.
    do 12 (destruct i as [|i]; [vm_compute; reflexivity|]). lia.
  - intros i Hi.
    do 12 (destruct i as [|i]; [vm_compute; discriminate|]). lia.
  - vm_compute. discriminate.
  - exists k. split; [exact Hk|exact Hbound].
Defined.

(** ** Records that break the aggregation *)

(** Whether a record makes [_parse_log_line] raise depends neither on
    the parser nor on the world, and nothing has happened by then. *)
Lemma parse_log_line_raises_anywhere
    {MetricType MetricStatistic MetricsTable : Type}
    {P : LogMetricsParser MetricType MetricStatistic MetricsTable}
    (line : LogLine) (p0 p : parser) (w0 w : World MetricType MetricStatistic)
    (e : exn) :
  fst (_parse_log_line line p0 w0) = Raise e ->
  _parse_log_line line p w = (Raise e, w).
Proof.
  unfold _parse_log_line.
  destruct (get_element_const (MetricType := MetricType)
              (MetricStatistic := MetricStatistic) "@message" line) as [om Hm].
  destruct (get_element_const (MetricType := MetricType)
              (MetricStatistic := MetricStatistic) "@timestamp" line) as [ot Ht].
  unfold bind. rewrite !Hm.
  destruct om as [message|e1|]; [|by intros [= <-]|discriminate].
  destruct (truthy_str message); [|discriminate].
  rewrite !Ht.
  destruct ot as [timestamp|e2|]; [|by intros [= <-]|discriminate].
  destruct message; discriminate.
Qed.

(** X15: a record that makes [_parse_log_line] raise ends the
    aggregation with that exception: the records before it have been
    given to the parser, the records after it are not looked at, and
    [get_parsed_metrics] is not called. *)
Theorem malformed_record_aborts_aggregation
    {MetricType MetricStatistic MetricsTable : Type}
    {P : LogMetricsParser MetricType MetricStatistic MetricsTable}
    (before after : list LogLine) (bad : LogLine)
    (metric_type : MetricType) (statistic : MetricStatistic)
    (w : World MetricType MetricStatistic) (e : exn) :
  Forall well_formed_line before ->
  fst (_parse_log_line bad parser_new w) = Raise e ->
  exists w',
    _parse_log_query_results (before ++ bad :: after) metric_type statistic w
    = (Raise e, w')
    /\ trace w' = trace w ++ [EvParserNew] ++ ingest_events before.
Proof.
  intros Hwf Hbad. unfold _parse_log_query_results.
  unfold bind at 1. cbn [LogMetricsParser_new]. unfold bind at 1.
  rewrite for_results_app. unfold bind at 1. rewrite for_results_ok by done.
  cbn [for_results]. unfold bind at 1.
  rewrite (parse_log_line_raises_anywhere bad parser_new _ w _ e Hbad).
  eexists. split; [reflexivity|].
  rewrite emits_trace. cbn [trace emit]. by rewrite <- app_assoc.
Qed.

Lemma malformed_record_aborts_aggregation_witness :
  let good := [result_field "@timestamp" "1000";
               result_field "@message" "Metrics - energy=0.1"] in
  let bad := [result_field "@message" "Metrics - energy=0.2"; ∅] in
  let w := example_world sleeping_clock [] running in
  exists w',
    _parse_log_query_results (P := recording_parser _ _) [good; bad; good]
                             TIMESTAMP MAX w
    = (Raise (KeyError "field"), w')
    /\ trace w' = [EvParserNew; EvParseLogMessage (Some "1000") "Metrics - energy=0.1"].
Proof.
  intros good bad w.
  destruct (malformed_record_aborts_aggregation (P := recording_parser _ _)
              [good] [good] bad TIMESTAMP MAX w (KeyError "field"))
    as (w' & Hrun & Htr).
  - repeat constructor; by eexists.
  - reflexivity.
  - exists w'. split; [exact Hrun|exact Htr].
Defined.
